(** * winmixgenyo: the content store and the table editing form

    A shallow embedding of
    - [src/context/ContentContext.tsx]: the store with persistence
      ([validateContent], the load effect, [addContent], [updateContent],
      [deleteContent], [reorderContent] and the sorted [contents]
      snapshot) and the earlier, simpler version of the store kept in the
      same file;
    - [src/components/ContentCreator/Forms/TableForm.tsx]
      ([tableFormSchema], the default values, [handleAddColumn],
      [handleRemoveColumn], [handleAddRow], [onSubmit] and the two remove
      buttons);
    - the type guards of [types/content] and the ids of
      [components/ui/form.utils.ts].

    TypeScript types are erased at run time, so a content item is modelled
    as what it is there: a JavaScript object, i.e. a finite map from
    property names to values. *)

From Stdlib Require Import QArith Lqa.
From stdpp Require Import gmap strings list fin_maps sorting.

Set Warnings "-register-all".
Close Scope Q_scope.
Open Scope string_scope.
Open Scope list_scope.

(** ** JavaScript values *)

Module Js.

(** The values [JSON.parse] can produce, plus [undefined] (which an object
    in memory may hold under a key).  A number is kept as the rational its
    literal denotes; rounding to a double is not modelled, the code only
    tests [typeof] on numbers and compares integer indices. *)
Inductive value :=
| VUndefined
| VNull
| VBool (b : bool)
| VNum (q : Q)
| VStr (s : string)
| VArr (elems : list value)
| VObj (props : gmap string value).

(** Property read [v.key]: [undefined] when the key is absent or [v] has no
    such own property (arrays parsed from JSON only have indices). *)
Definition get (key : string) (v : value) : value :=
  match v with
  | VObj props => default VUndefined (props !! key)
  | _ => VUndefined
  end.

(** ToBoolean. *)
Definition truthy (v : value) : bool :=
  match v with
  | VUndefined | VNull => false
  | VBool b => b
  | VNum q => negb (Qeq_bool q 0)
  | VStr s => negb (String.eqb s "")
  | VArr _ | VObj _ => true
  end.

(** [typeof v === 'object'] (true for [null] and for arrays as well). *)
Definition typeof_object (v : value) : bool :=
  match v with
  | VNull | VArr _ | VObj _ => true
  | _ => false
  end.

(** [typeof v === 'number']. *)
Definition typeof_number (v : value) : bool :=
  match v with
  | VNum _ => true
  | _ => false
  end.

(** [v === s] for a string [s]. *)
Definition strict_eq_str (v : value) (s : string) : bool :=
  match v with
  | VStr s' => String.eqb s' s
  | _ => false
  end.

(** [strings.includes(v)]. *)
Definition includes (strings : list string) (v : value) : bool :=
  existsb (strict_eq_str v) strings.

(** The number [n] as a value, for array indices and lengths. *)
Definition num (n : nat) : value := VNum (inject_Z (Z.of_nat n)).

(** [Array.prototype.findIndex]; [None] stands for [-1]. *)
Fixpoint findIndex {A} (p : A → bool) (l : list A) : option nat :=
  match l with
  | [] => None
  | x :: l' => if p x then Some 0 else S <$> findIndex p l'
  end.

(** [l.splice(start, deleteCount, ...ins)] for [0 <= start]: the removed
    elements and the array left behind. *)
Definition splice {A} (start deleteCount : nat) (ins : list A) (l : list A)
  : list A * list A :=
  (take deleteCount (drop start l),
   take start l ++ ins ++ drop (start + deleteCount) l).

(** [l.map((x, index) => f index x)] is stdpp's [imap f l]. *)

(** Stable insertion of [x] before the first element it does not exceed. *)
Fixpoint insert_by {A} (le : A → A → bool) (x : A) (l : list A) : list A :=
  match l with
  | [] => [x]
  | y :: l' => if le x y then x :: l else y :: insert_by le x l'
  end.

(** [Array.prototype.sort] is stable; for a comparator that is a total
    preorder its result is the one of insertion sort. *)
Definition sort_by {A} (le : A → A → bool) (l : list A) : list A :=
  foldr (insert_by le) [] l.

End Js.
Import Js.

(** A content item at run time. *)
Abbreviation Content := (gmap string value).

(** ** The content store ([ContentContext.tsx]) *)

Module Store.

(** [validTypes] of [validateContent]. *)
Definition validTypes : list string :=
  ["text"; "title"; "table"; "button"; "card"; "grid"].

(** [validateContent(content: unknown)]. *)
Definition validateContent (content : value) : bool :=
  if negb (truthy content) || negb (typeof_object content) then false
  else
    if negb (truthy (get "id" content))
       || negb (truthy (get "type" content))
       || negb (typeof_number (get "order" content))
    then false
    else includes validTypes (get "type" content).

(** What [localStorage.getItem(STORAGE_KEY)] followed by [JSON.parse] gives:
    no usable entry ([null] or the empty string, for which the effect does
    nothing), a text that [JSON.parse] rejects, or a parsed value. *)
Inductive saved :=
| NoEntry
| Unparsable
| Parsed (parsedContents : value).

(** [Array.isArray]. *)
Definition isArray (v : value) : option (list value) :=
  match v with
  | VArr elems => Some elems
  | _ => None
  end.

(** The cast of the type guard [content is Content]: the object behind a
    validated value. *)
Definition asContent (v : value) : option Content :=
  match v with
  | VObj props => Some props
  | _ => None
  end.

(** The load effect, run once on the initial state [contents = []]:
    the collection the store starts with. *)
Definition loadContents (s : saved) : list Content :=
  match s with
  | NoEntry => []
  | Unparsable => []
  | Parsed parsedContents =>
      match isArray parsedContents with
      | Some elems =>
          if forallb validateContent elems then omap asContent elems else []
      | None => []
      end
  end.

(** [item.id === id]. *)
Definition has_id (id : string) (item : Content) : bool :=
  strict_eq_str (default VUndefined (item !! "id")) id.

(** [addContent(contentData)].  [contents_length] is the [contents.length]
    the callback closed over at the last render, [uuid] the result of
    [uuidv4()], [now] the clock reading. *)
Definition addContent (contents_length : nat) (contentData : Content)
    (uuid now : string) (prev : list Content) : list Content :=
  let newContent : Content :=
    <["updatedAt" := VStr now]>
      (<["createdAt" := VStr now]>
        (<["order" := num contents_length]>
          (<["id" := VStr uuid]> contentData))) in
  prev ++ [newContent].

(** [updateContent(id, contentUpdate)]; [now index] is the clock reading
    taken while the item at [index] is mapped. *)
Definition updateContent (id : string) (contentUpdate : Content)
    (now : nat → string) (prev : list Content) : list Content :=
  imap (λ index item,
          if has_id id item
          then <["updatedAt" := VStr (now index)]> (contentUpdate ∪ item)
          else item) prev.

(** [deleteContent(id)]. *)
Definition deleteContent (id : string) (prev : list Content) : list Content :=
  let filtered := List.filter (λ item, negb (has_id id item)) prev in
  imap (λ index item, <["order" := num index]> item) filtered.

(** The final [items.map] of [reorderContent]. *)
Definition renumber (now : nat → string) (items : list Content)
  : list Content :=
  imap (λ index item,
          <["updatedAt" := VStr (now index)]> (<["order" := num index]> item))
       items.

(** [reorderContent(id, newOrder)] for an integer [newOrder]. *)
Definition reorderContent (id : string) (newOrder : Z) (now : nat → string)
    (prev : list Content) : list Content :=
  match findIndex (has_id id) prev with
  | None => prev
  | Some itemIndex =>
      let '(removed, items) := splice itemIndex 1 [] prev in
      match removed with
      | [] => prev (* does not occur: [itemIndex] is an index of [prev] *)
      | movedItem :: _ =>
          let targetOrder :=
            Z.max 0 (Z.min newOrder (Z.of_nat (length items))) in
          let '(_, items) :=
            splice (Z.to_nat targetOrder) 0 [movedItem] items in
          renumber now items
      end
  end.

(** [a.order] as a number, when it is one. *)
Definition order_of (item : Content) : option Q :=
  match item !! "order" with
  | Some (VNum q) => Some q
  | _ => None
  end.

(** The comparator [(a, b) => a.order - b.order] on items paired with their
    numeric [order]: [a] goes before [b] unless the difference is positive. *)
Definition compare_order (a b : Q * Content) : bool :=
  Qle_bool (a.1 - b.1) 0.

(** The snapshot [[...contents].sort((a, b) => a.order - b.order)].  It is
    given for collections whose [order]s are all numbers, which is what the
    store holds; the coercion of other values to numbers is not modelled. *)
Definition sortedContents (contents : list Content) : option (list Content) :=
  keyed ← mapM (λ item, q ← order_of item; Some (q, item)) contents;
  Some (snd <$> sort_by compare_order keyed).

(** The mutations the ordering properties range over, with the inputs each one
    reads from its environment. *)
Inductive op :=
| Add (contentData : Content) (uuid now : string)
| Delete (id : string)
| Reorder (id : string) (newOrder : Z) (now : nat → string).

(** One handler run to completion on the settled state: [addContent] then
    sees [contents.length] of the collection it appends to. *)
Definition step (contents : list Content) (o : op) : list Content :=
  match o with
  | Add contentData uuid now =>
      addContent (length contents) contentData uuid now contents
  | Delete id => deleteContent id contents
  | Reorder id newOrder now => reorderContent id newOrder now contents
  end.

(** A sequence of operations applied to the initially empty store. *)
Definition run (ops : list op) : list Content := foldl step [] ops.

(** One call made by a handler of the render that showed [contents_length]
    items: [addContent] is the callback memoised for that render
    ([useCallback(..., [contents.length])]) and carries its
    [contents.length], while the updater it queues is applied to the
    collection [contents] the earlier calls of the same handler left. *)
Definition call (contents_length : nat) (contents : list Content) (o : op)
  : list Content :=
  match o with
  | Add contentData uuid now =>
      addContent contents_length contentData uuid now contents
  | Delete id => deleteContent id contents
  | Reorder id newOrder now => reorderContent id newOrder now contents
  end.

(** The calls one handler makes before the next render, in their order,
    on the collection [contents] the render showed. *)
Definition render (contents : list Content) (calls : list op)
  : list Content :=
  foldl (call (length contents)) contents calls.

(** Handlers run one after the other on the initially empty store, each
    between two renders. *)
Definition run_renders (handlers : list (list op)) : list Content :=
  foldl render [] handlers.

(** The [order] property of every item, as read. *)
Definition orders (contents : list Content) : list (option value) :=
  (λ item : Content, item !! "order") <$> contents.

(** The orders [0, 1, ..., n-1]. *)
Definition range (n : nat) : list (option value) :=
  (λ i, Some (num i)) <$> seq 0 n.

(** *** Properties the statements below are about *)

(** The item at position [i] carries [order = i]. *)
Definition numbered (contents : list Content) : Prop :=
  ∀ i (item : Content),
    contents !! i = Some item → item !! "order" = Some (num i).

(** The same, counting from [n]. *)
Definition numbered_from (n : nat) (contents : list Content) : Prop :=
  ∀ i (item : Content),
    contents !! i = Some item → item !! "order" = Some (num (n + i)).

(** The clamp computed by [reorderContent] on a collection of [n] items:
    [items.length] is [n - 1] once the moved item is spliced out. *)
Definition targetOrder (newOrder : Z) (n : nat) : nat :=
  Z.to_nat (Z.max 0 (Z.min newOrder (Z.of_nat (n - 1)))).

(** [min(max(k, 0), bound)] as a position. *)
Definition clamped (k : Z) (bound : nat) : nat :=
  Z.to_nat (Z.min (Z.max k 0) (Z.of_nat bound)).

(** An item without the two fields every renumbering rewrites; two items
    with the same [unstamped] differ at most in [order] and [updatedAt]. *)
Definition unstamped (item : Content) : Content :=
  delete "updatedAt" (delete "order" item).

(** The fields of [Content] that the type of [updateContent]'s second
    argument leaves out:
    [Partial<Omit<Content, 'id' | 'type' | 'order' | 'createdAt' | 'updatedAt'>>]. *)
Definition omitted : list string :=
  ["id"; "type"; "order"; "createdAt"; "updatedAt"].

(** [contentUpdate] has the type [updateContent] declares for it. *)
Definition well_typed_update (contentUpdate : Content) : Prop :=
  ∀ key, key ∈ omitted → contentUpdate !! key = None.


(** The values the validator takes for well formed, in the words of the
    specification: an object with a truthy [id], a [type] among the six
    known kinds and a numeric [order]. *)
Definition structurally_valid (v : value) : Prop :=
  ∃ (props : Content) ty q,
    v = VObj props
    ∧ truthy (get "id" v) = true
    ∧ props !! "type" = Some (VStr ty) ∧ ty ∈ validTypes
    ∧ props !! "order" = Some (VNum q).

(** The [updatedAt] property of every item, as read. *)
Definition stamps (contents : list Content) : list (option value) :=
  (λ item : Content, item !! "updatedAt") <$> contents.

(** An item without its [order]. *)
Definition unordered (item : Content) : Content := delete "order" item.

(** What [addContent] is declared to take, for a content kind the validator
    knows: [contentData] carries a valid [type]. *)
Definition typed_data (contentData : Content) : Prop :=
  ∃ ty, contentData !! "type" = Some (VStr ty) ∧ ty ∈ validTypes.

(** Operations whose [Add]s pass typed data and get a non-empty id. *)
Definition typed_op (o : op) : Prop :=
  match o with
  | Add contentData uuid _ => typed_data contentData ∧ uuid ≠ ""
  | _ => True
  end.

(** [a] is not after [b] in the order the snapshot sorts by. *)
Definition order_le (a b : Content) : Prop :=
  match order_of a, order_of b with
  | Some p, Some q => (p <= q)%Q
  | _, _ => False
  end.

(** The only item of [contents] with the given id is at [itemIndex]. *)
Definition only_at (id : string) (itemIndex : nat) (contents : list Content)
  : Prop :=
  ∀ j (item : Content),
    contents !! j = Some item → has_id id item = true → j = itemIndex.

End Store.

(** ** The table editing form ([TableForm.tsx]) *)

Module TableForm.
Import Store.

(** A row of the working model: column id to cell text. *)
Abbreviation Row := (gmap string string).

(** An element of [columns]. *)
Record Column := { id : string; header : string }.

(** [TableFormValues], the type inferred from [tableFormSchema]. *)
Record TableFormValues := {
  title : string;
  columns : list Column;
  data : list Row;
}.

(** [tableFormSchema]: the three [min(1)] rules on strings and the two on
    arrays. *)
Definition tableFormSchema (values : TableFormValues) : bool :=
  (1 <=? String.length (title values))%nat
  && forallb (λ col, (1 <=? String.length (header col))%nat) (columns values)
  && (1 <=? length (columns values))%nat
  && (1 <=? length (data values))%nat.

(** *** The form toolkit

    react-hook-form is not part of the repository.  It is taken as the
    specification describes it: the [fields] of a field array mirror the
    form values of the array it controls, [append] and [remove] act on
    that array, and [getValues]/[setValue] read and write a path of the
    form state synchronously.  A column id is a [uuidv4()] result and has
    no path separator, so [data.i.colId] names one key of row [i]. *)

Definition columnFields (form : TableFormValues) : list Column := columns form.

Definition dataFields (form : TableFormValues) : list Row := data form.

Definition appendColumn (col : Column) (form : TableFormValues)
  : TableFormValues :=
  {| title := title form; columns := columns form ++ [col]; data := data form |}.

Definition removeColumn (index : nat) (form : TableFormValues)
  : TableFormValues :=
  {| title := title form;
     columns := delete index (columns form);
     data := data form |}.


(** [form.setValue(`data.${rowIndex}.${colId}`, v)]. *)
Definition setValue_cell (rowIndex : nat) (colId v : string)
    (form : TableFormValues) : TableFormValues :=
  {| title := title form;
     columns := columns form;
     data := alter (λ row : Row, <[colId := v]> row) rowIndex (data form) |}.

(** [form.setValue('data', updatedData)]. *)
Definition setValue_data (updatedData : list Row) (form : TableFormValues)
  : TableFormValues :=
  {| title := title form; columns := columns form; data := updatedData |}.

(** *** The handlers *)

(** [handleAddColumn]; [newColId] is the result of [uuidv4()]. *)
Definition handleAddColumn (newColId : string) (form : TableFormValues)
  : TableFormValues :=
  let appended := appendColumn {| id := newColId; header := "" |} form in
  foldl (λ form' rowIndex, setValue_cell rowIndex newColId "" form')
        appended (seq 0 (length (dataFields form))).

(** [delete newRow[key]], where an [undefined] key names the property
    ["undefined"]. *)
Definition delete_key (key : option string) (row : Row) : Row :=
  match key with
  | Some colId => delete colId row
  | None => delete "undefined" row
  end.

(** [handleRemoveColumn(index)]. *)
Definition handleRemoveColumn (index : nat) (form : TableFormValues)
  : TableFormValues :=
  let colIdToRemove := id <$> columns form !! index in
  let removed := removeColumn index form in
  let currentData := data removed in
  let updatedData := delete_key colIdToRemove <$> currentData in
  setValue_data updatedData removed.

(** The remove-column button is rendered with
    [disabled={columnFields.length <= 1}]. *)
Definition removeColumn_disabled (form : TableFormValues) : bool :=
  (length (columnFields form) <=? 1)%nat.

(** A click on the remove button of column [index]: a disabled button does
    not call its handler. *)
Definition clickRemoveColumn (index : nat) (form : TableFormValues)
  : TableFormValues :=
  if removeColumn_disabled form then form else handleRemoveColumn index form.


(** [row[col.id] || ""]. *)
Definition cell (row : Row) (col : Column) : string :=
  match row !! id col with
  | Some s => if String.eqb s "" then "" else s
  | None => ""
  end.

(** The row projection of [onSubmit]: [newRow[col.header] = ...] for each
    column in turn. *)
Definition projectRow (cols : list Column) (row : Row) : Row :=
  foldl (λ newRow col, <[header col := cell row col]> newRow) ∅ cols.

(** [contentToAdd]: the persisted shape of a table. *)
Record TablePayload := {
  payload_title : string;
  payload_columns : list string;
  payload_data : list Row;
}.

Definition contentToAdd (values : TableFormValues) : TablePayload :=
  {| payload_title := title values;
     payload_columns := header <$> columns values;
     payload_data := projectRow (columns values) <$> data values |}.

(** The object [{ type: "table", ...contentToAdd }]. *)
Definition tableObject (p : TablePayload) : Content :=
  <["data" := VArr ((λ row : Row, VObj (VStr <$> row)) <$> payload_data p)]>
    (<["columns" := VArr (VStr <$> payload_columns p)]>
      (<["title" := VStr (payload_title p)]>
        {["type" := VStr "table"]})).

(** [onSubmit(values)]: the call of the store's [addContent]. *)
Definition onSubmit (values : TableFormValues) (contents_length : nat)
    (uuid now : string) (prev : list Content) : list Content :=
  addContent contents_length (tableObject (contentToAdd values)) uuid now prev.


(** The last column labelled [h], the one whose assignment to
    [newRow[h]] is not overwritten. *)
Definition last_with_header (h : string) (cols : list Column) : option Column :=
  last (List.filter (λ col, String.eqb (header col) h) cols).



(** *** The remaining buttons and the initial state *)









End TableForm.

(** ** The type guards of the content types ([types/content]) *)

Module ContentTypes.

(** [content.type === kind]. *)
Definition has_type (kind : string) (content : Content) : bool :=
  strict_eq_str (default VUndefined (content !! "type")) kind.

Definition isTextContent : Content → bool := has_type "text".
Definition isTitleContent : Content → bool := has_type "title".
Definition isTableContent : Content → bool := has_type "table".
Definition isButtonContent : Content → bool := has_type "button".
Definition isCardContent : Content → bool := has_type "card".
Definition isGridContent : Content → bool := has_type "grid".

(** The six guards, in the order of the [Content] union. *)
Definition guards : list (Content → bool) :=
  [isTextContent; isTitleContent; isTableContent;
   isButtonContent; isCardContent; isGridContent].

(** How many guards accept [content]. *)
Definition accepting (content : Content) : nat :=
  length (List.filter (λ guard : Content → bool, guard content) guards).

End ContentTypes.

(** ** The first version of the store ([ContentContext.tsx], lines 1-70) *)

Module StoreV1.
Import Store.

(** [addContent(content)]; [id] is the string built from [Date.now()] and
    [Math.random()]. *)
Definition addContent (content : Content) (id : string)
    (prevList : list Content) : list Content :=
  prevList ++ [<["id" := VStr id]> content].

(** [updateContent(updatedContent)], for an [updatedContent] whose [id] is
    a string as [ContentType] declares; [None] otherwise. *)
Definition updateContent (updatedContent : Content) (prevList : list Content)
  : option (list Content) :=
  match updatedContent !! "id" with
  | Some (VStr id) =>
      Some ((λ content : Content,
               if has_id id content then updatedContent else content)
              <$> prevList)
  | _ => None
  end.

(** [deleteContent(id)]. *)
Definition deleteContent (id : string) (prevList : list Content)
  : list Content :=
  List.filter (λ content, negb (has_id id content)) prevList.

End StoreV1.

(** ** The ids of a form item ([form.utils.ts]) *)

Module FormUtils.

(** The ids [useFormField] derives from the id of the enclosing
    [FormItem]. *)
Definition formItemId (id : string) : string := id ++ "-form-item".
Definition formDescriptionId (id : string) : string :=
  id ++ "-form-item-description".
Definition formMessageId (id : string) : string :=
  id ++ "-form-item-message".

(** [.filter(Boolean)] on strings and [undefined] ([None]): what is left
    are the non-empty strings. *)
Definition filter_Boolean (l : list (option string)) : list string :=
  omap (λ entry,
          match entry with
          | Some s => if String.eqb s "" then None else Some s
          | None => None
          end) l.

(** [.join(sep)]. *)
Fixpoint join (sep : string) (l : list string) : string :=
  match l with
  | [] => ""
  | [s] => s
  | s :: l' => s ++ sep ++ join sep l'
  end.

(** [describedBy] of [FormControl]; [error] tells whether the field state
    has an error. *)
Definition describedBy (id : string) (error : bool) : string :=
  join " " (filter_Boolean
              [Some (formDescriptionId id);
               if error then Some (formMessageId id) else None]).

(** [describedBy || undefined], the value of [aria-describedby]. *)
Definition aria_describedby (id : string) (error : bool) : option string :=
  let s := describedBy id error in
  if String.eqb s "" then None else Some s.

End FormUtils.

(** ** Sample data *)

Module Examples.
Import Store TableForm.

(** A stored item. *)
Definition item (id kind : string) (order : Z) (stamp : string) : Content :=
  <["id" := VStr id]>
    (<["type" := VStr kind]>
      (<["order" := VNum (inject_Z order)]>
        (<["createdAt" := VStr stamp]> {["updatedAt" := VStr stamp]}))).

Definition yesterday : string := "2024-05-01T10:00:00.000Z".
Definition today : string := "2024-05-02T10:00:00.000Z".

(** Two items created [yesterday]. *)
Definition store_ab : list Content :=
  [item "a" "text" 0 yesterday; item "b" "title" 1 yesterday].

(** A clock that reads [today] whenever asked. *)
Definition clock (index : nat) : string := today.

(** A persisted item whose [order] is [-1]. *)
Definition item_minus1 : Content := item "a" "text" (-1) yesterday.

(** An update of the [content] field. *)
Definition new_text : Content := {["content" := VStr "hello"]}.

(** An update that carries [order]. *)
Definition order_7 : Content := {["order" := num 7]}.

(** The form of the add-column scenario. *)
Definition form_alice : TableFormValues :=
  {| title := "T";
     columns := [{| id := "a"; header := "Name" |}];
     data := [{["a" := "Alice"]}] |}.

(** The form of the submit scenario. *)
Definition form_bob : TableFormValues :=
  {| title := "T";
     columns := [{| id := "a"; header := "Name" |}];
     data := [{["a" := "Bob"]}] |}.


(** Two columns with the same header. *)
Definition form_dup : TableFormValues :=
  {| title := "T";
     columns := [{| id := "a"; header := "Name" |};
                 {| id := "b"; header := "Name" |}];
     data := [<["a" := "Alice"]> {["b" := "Bob"]}] |}.

(** Two columns, one row. *)
Definition form_two : TableFormValues :=
  {| title := "T";
     columns := [{| id := "a"; header := "Name" |};
                 {| id := "b"; header := "Age" |}];
     data := [<["a" := "Alice"]> {["b" := "30"]}] |}.

End Examples.
(** ** Facts about the array primitives *)

Section ArrayFacts.
Context {A : Type}.
Implicit Types (p : A → bool) (l : list A).

Lemma findIndex_Some p l i :
  findIndex p l = Some i →
  ∃ x, l !! i = Some x ∧ p x = true
       ∧ ∀ j y, j < i → l !! j = Some y → p y = false.
Proof.
  revert i. induction l as [|a l IH]; intros i; simpl; [done|].
  destruct (p a) eqn:Hpa.
  - intros [= <-]. exists a. repeat split; [done|]. intros j y Hj. lia.
  - destruct (findIndex p l) as [k|] eqn:Hk; simpl; [|done].
    intros [= <-]. destruct (IH k eq_refl) as (x & Hx & Hpx & Hbefore).
    exists x. repeat split; [done..|].
    intros [|j] y Hj; simpl.
    + by intros [= <-].
    + apply Hbefore. lia.
Qed.

Lemma findIndex_None p l :
  findIndex p l = None ↔ ∀ x, x ∈ l → p x = false.
Proof.
  induction l as [|a l IH]; simpl.
  - split; [|done]. intros _ x Hx. by apply elem_of_nil in Hx.
  - destruct (p a) eqn:Hpa.
    + split; [done|]. intros H. specialize (H a (list_elem_of_here _ _)).
      congruence.
    + destruct (findIndex p l) eqn:Hk; simpl.
      * split; [done|]. intros H.
        assert (Some n = None) as Hn; [|done].
        apply IH. intros x Hx. apply H. by apply list_elem_of_further.
      * split; [|done]. intros _ x [->|Hx]%elem_of_cons; [done|].
        by apply IH.
Qed.

Lemma splice_remove_1 l i x :
  l !! i = Some x → splice i 1 [] l = ([x], delete i l).
Proof.
  intros Hx. unfold splice. f_equal.
  - rewrite (drop_S _ _ _ Hx). simpl. by rewrite take_0.
  - simpl. rewrite delete_take_drop. f_equal. f_equal. lia.
Qed.

Lemma splice_insert_1 l i x :
  splice i 0 [x] l = ([], take i l ++ x :: drop i l).
Proof. unfold splice. rewrite take_0. simpl. by rewrite Nat.add_0_r. Qed.

Lemma sort_by_sorted (le : A → A → bool) l :
  Sorted (λ a b, le a b = true) l → sort_by le l = l.
Proof.
  induction 1 as [|a l Hl IH Hhd]; [done|].
  unfold sort_by in *. simpl. rewrite IH.
  destruct Hhd as [|b l' Hab]; simpl; [done|]. by rewrite Hab.
Qed.

End ArrayFacts.

(** ** The content store: ordering *)

Module StoreFacts.
Import Store Examples.


Lemma numbered_nil : numbered [].
Proof. intros i item. by rewrite lookup_nil. Qed.

Lemma numbered_orders contents :
  numbered contents → orders contents = range (length contents).
Proof.
  intros Hnum. apply list_eq. intros i. unfold orders, range.
  rewrite !list_lookup_fmap.
  destruct (contents !! i) as [item|] eqn:Hi; simpl.
  - rewrite (Hnum _ _ Hi).
    apply lookup_lt_Some in Hi. by rewrite lookup_seq_lt.
  - apply lookup_ge_None in Hi. by rewrite lookup_seq_ge.
Qed.

Lemma addContent_numbered contentData uuid now prev :
  numbered prev →
  numbered (addContent (length prev) contentData uuid now prev).
Proof.
  intros Hnum i item. unfold addContent.
  rewrite lookup_app. destruct (prev !! i) as [item'|] eqn:Hi.
  - intros [= <-]. by apply Hnum.
  - apply lookup_ge_None in Hi.
    destruct (i - length prev) as [|k] eqn:Hk; simpl; [|done].
    intros [= <-]. assert (i = length prev) as -> by lia.
    rewrite !lookup_insert_ne by done. by rewrite lookup_insert_eq.
Qed.

Lemma deleteContent_numbered id prev : numbered (deleteContent id prev).
Proof.
  intros i item. unfold deleteContent. rewrite list_lookup_imap.
  destruct (_ !! i); simpl; [|done].
  intros [= <-]. by rewrite lookup_insert_eq.
Qed.

Lemma renumber_numbered now items : numbered (renumber now items).
Proof.
  intros i item. unfold renumber. rewrite list_lookup_imap.
  destruct (_ !! i); simpl; [|done].
  intros [= <-]. rewrite lookup_insert_ne by done. by rewrite lookup_insert_eq.
Qed.

Lemma renumber_length now items : length (renumber now items) = length items.
Proof. unfold renumber. by rewrite length_imap. Qed.


Lemma reorderContent_found id newOrder now prev itemIndex movedItem :
  findIndex (has_id id) prev = Some itemIndex →
  prev !! itemIndex = Some movedItem →
  reorderContent id newOrder now prev =
    let others := delete itemIndex prev in
    let k := targetOrder newOrder (length prev) in
    renumber now (take k others ++ movedItem :: drop k others).
Proof.
  intros Hfind Hitem. unfold reorderContent. rewrite Hfind.
  rewrite (splice_remove_1 _ _ _ Hitem). rewrite splice_insert_1.
  simpl. unfold targetOrder. rewrite length_delete by eauto.
  done.
Qed.

Lemma reorderContent_absent id newOrder now prev :
  findIndex (has_id id) prev = None →
  reorderContent id newOrder now prev = prev.
Proof. intros Hfind. unfold reorderContent. by rewrite Hfind. Qed.

Lemma reorderContent_numbered id newOrder now prev :
  numbered prev → numbered (reorderContent id newOrder now prev).
Proof.
  intros Hnum. destruct (findIndex (has_id id) prev) as [i|] eqn:Hfind.
  - destruct (findIndex_Some _ _ _ Hfind) as (m & Hm & _).
    rewrite (reorderContent_found _ _ _ _ _ _ Hfind Hm). simpl.
    apply renumber_numbered.
  - by rewrite reorderContent_absent.
Qed.

Lemma step_numbered contents o : numbered contents → numbered (step contents o).
Proof.
  intros Hnum. destruct o; simpl.
  - by apply addContent_numbered.
  - apply deleteContent_numbered.
  - by apply reorderContent_numbered.
Qed.

Lemma run_numbered ops : numbered (run ops).
Proof.
  unfold run. generalize numbered_nil. generalize (@nil Content).
  induction ops as [|o ops IH]; intros contents Hnum; simpl; [done|].
  apply IH. by apply step_numbered.
Qed.

Lemma orders_addContent n contentData uuid now prev :
  orders (addContent n contentData uuid now prev)
  = orders prev ++ [Some (num n)].
Proof.
  unfold addContent, orders. rewrite fmap_app. simpl.
  rewrite !lookup_insert_ne by done. by rewrite lookup_insert_eq.
Qed.

Lemma run_renders_snoc handlers calls :
  run_renders (handlers ++ [calls]) = render (run_renders handlers) calls.
Proof. unfold run_renders. by rewrite foldl_app. Qed.

Lemma run_renders_single ops : run_renders ((λ o, [o]) <$> ops) = run ops.
Proof.
  induction ops as [|o ops IH] using rev_ind; [done|].
  rewrite fmap_app. simpl. rewrite run_renders_snoc, IH.
  unfold run. rewrite foldl_app. simpl. unfold render. simpl.
  by destruct o.
Qed.

(** C1. The [order] fields are the range [[0, N)], each value once, after
    any sequence of add, delete and reorder operations on the initially
    empty store in which every call is made by a handler of its own, so
    that it sees the render of the settled collection.  They are not when
    a handler calls [addContent] twice: whatever happened before, both new
    items get the [contents.length] of the render the handler belongs to.
    On the empty store two additions from one handler give the orders
    [0, 0]; with two items in the store, a deletion and an addition from
    one handler give [0, 2]. *)
Theorem order_contiguous_only_when_settled :
  (∀ ops : list op,
     run_renders ((λ o, [o]) <$> ops) = run ops
     ∧ orders (run ops) = range (length (run ops))
     ∧ orders (run ops) ≡ₚ range (length (run ops))
     ∧ NoDup (orders (run ops)))
  ∧ (∀ (handlers : list (list op)) (contentData1 contentData2 : Content)
       (uuid1 uuid2 now1 now2 : string),
       ¬ NoDup (orders (run_renders
                  (handlers ++ [[Add contentData1 uuid1 now1;
                                 Add contentData2 uuid2 now2]]))))
  ∧ orders (run_renders [[Add new_text "a" today; Add new_text "b" today]])
    = [Some (num 0); Some (num 0)]
  ∧ orders (run_renders [[Add new_text "a" today]; [Add new_text "b" today];
                         [Delete "a"; Add new_text "c" today]])
    = [Some (num 0); Some (num 2)].
Proof.
  split; [|split; [|split; reflexivity]].
  - intros ops. split; [apply run_renders_single|].
    pose proof (numbered_orders _ (run_numbered ops)) as Heq.
    split; [done|]. split; [by rewrite Heq|].
    rewrite Heq. unfold range. apply NoDup_fmap_2; [|apply NoDup_seq].
    intros i j [= Hij]. lia.
  - intros handlers contentData1 contentData2 uuid1 uuid2 now1 now2.
    rewrite run_renders_snoc. unfold render. simpl.
    rewrite !orders_addContent, <- app_assoc. simpl.
    intros [_ [_ Hdup]]%NoDup_app.
    apply NoDup_cons in Hdup as [Hin _]. apply Hin, list_elem_of_here.
Qed.

End StoreFacts.

(** ** The content store: the sorted snapshot and reorder *)

Module SnapshotFacts.
Import Store StoreFacts.


Lemma numbered_from_tail n item contents :
  numbered_from n (item :: contents) → numbered_from (S n) contents.
Proof.
  intros Hnum i item' Hi. rewrite (Hnum (S i) item' Hi). do 2 f_equal. lia.
Qed.

Lemma order_of_num (item : Content) n :
  item !! "order" = Some (num n) →
  order_of item = Some (inject_Z (Z.of_nat n)).
Proof. intros H. unfold order_of. by rewrite H. Qed.

Lemma compare_order_succ n (a b : Content) :
  compare_order (inject_Z (Z.of_nat n), a) (inject_Z (Z.of_nat (S n)), b) = true.
Proof.
  unfold compare_order. apply Qle_bool_iff. simpl.
  unfold Qle, Qminus, Qplus, Qopp, inject_Z. simpl. lia.
Qed.

Lemma keyed_numbered n contents :
  numbered_from n contents →
  ∃ keyed,
    mapM (λ item, q ← order_of item; Some (q, item)) contents = Some keyed
    ∧ snd <$> keyed = contents
    ∧ Sorted (λ a b, compare_order a b = true) keyed
    ∧ ∀ k, head keyed = Some k → k.1 = inject_Z (Z.of_nat n).
Proof.
  revert n. induction contents as [|item contents IH]; intros n Hnum.
  - exists []. repeat split; [constructor|done].
  - destruct (IH (S n) (numbered_from_tail _ _ _ Hnum))
      as (keyed & Hmap & Hsnd & Hsorted & Hhead).
    exists ((inject_Z (Z.of_nat n), item) :: keyed).
    assert (order_of item = Some (inject_Z (Z.of_nat n))) as Hitem.
    { apply order_of_num. rewrite (Hnum 0 item eq_refl). do 2 f_equal. lia. }
    repeat split.
    + simpl. rewrite Hitem. simpl. by rewrite Hmap.
    + rewrite fmap_cons. simpl. by rewrite Hsnd.
    + constructor; [done|]. destruct keyed as [|[q b] keyed]; constructor.
      specialize (Hhead (q, b) eq_refl). simpl in Hhead. subst q.
      apply compare_order_succ.
    + by intros k [= <-].
Qed.

Lemma sortedContents_numbered contents :
  numbered contents → sortedContents contents = Some contents.
Proof.
  intros Hnum. destruct (keyed_numbered 0 contents)
    as (keyed & Hmap & Hsnd & Hsorted & _); [done|].
  unfold sortedContents. rewrite Hmap. simpl.
  by rewrite (sort_by_sorted _ _ Hsorted), Hsnd.
Qed.

End SnapshotFacts.

(** ** The content store: delete, reorder, update *)

Module MutationFacts.
Import Store StoreFacts SnapshotFacts Examples.

Lemma has_id_insert_ne key v id (item : Content) :
  key ≠ "id" → has_id id (<[key := v]> item) = has_id id item.
Proof. intros Hkey. unfold has_id. by rewrite lookup_insert_ne. Qed.

Lemma deleteContent_lookup id prev i :
  deleteContent id prev !! i =
    (λ item : Content, <["order" := num i]> item)
      <$> List.filter (λ item, negb (has_id id item)) prev !! i.
Proof. unfold deleteContent. by rewrite list_lookup_imap. Qed.

Lemma deleteContent_length id prev :
  length (deleteContent id prev) =
    length (List.filter (λ item, negb (has_id id item)) prev).
Proof. unfold deleteContent. by rewrite length_imap. Qed.

Lemma filter_lookup_In {A} (p : A → bool) l i x :
  List.filter p l !! i = Some x → x ∈ l ∧ p x = true.
Proof.
  intros Hx. apply list_elem_of_lookup_2 in Hx.
  apply list_elem_of_In, filter_In in Hx as [Hin Hp].
  split; [by apply list_elem_of_In|done].
Qed.

Lemma unordered_insert_order v (item : Content) :
  unordered (<["order" := v]> item) = unordered item.
Proof. unfold unordered. by rewrite delete_insert_eq. Qed.

Lemma unstamped_stamp u o (item : Content) :
  unstamped (<["updatedAt" := u]> (<["order" := o]> item)) = unstamped item.
Proof.
  unfold unstamped. apply map_eq. intros key.
  destruct (decide (key = "updatedAt")) as [->|Hu].
  { by rewrite !lookup_delete_eq. }
  rewrite !(lookup_delete_ne _ "updatedAt") by done.
  destruct (decide (key = "order")) as [->|Ho].
  { by rewrite !lookup_delete_eq. }
  rewrite !(lookup_delete_ne _ "order") by done.
  by rewrite !lookup_insert_ne by done.
Qed.

Lemma renumber_lookup now items i :
  renumber now items !! i =
    (λ item : Content,
       <["updatedAt" := VStr (now i)]> (<["order" := num i]> item))
      <$> items !! i.
Proof. unfold renumber. by rewrite list_lookup_imap. Qed.

Lemma unstamped_renumber now items :
  unstamped <$> renumber now items = unstamped <$> items.
Proof.
  apply list_eq. intros i. rewrite !list_lookup_fmap, renumber_lookup.
  destruct (items !! i); simpl; [|done]. by rewrite unstamped_stamp.
Qed.

Lemma targetOrder_clamped k n : targetOrder k n = clamped k (n - 1).
Proof. unfold targetOrder, clamped. lia. Qed.

Lemma omitted_spec key :
  key ∈ omitted ↔
    key = "id" ∨ key = "type" ∨ key = "order" ∨ key = "createdAt"
    ∨ key = "updatedAt".
Proof. unfold omitted. rewrite !elem_of_cons, elem_of_nil. tauto. Qed.

Lemma clamped_le k bound : (clamped k bound ≤ bound)%nat.
Proof. unfold clamped. lia. Qed.

(** C2. [deleteContent] removes every item with the given id, renumbers
    the remaining ones to [0, 1, ...] in their previous relative order and
    changes nothing but [order]; in particular every remaining item keeps
    the [updatedAt] it had, where the specification has it bumped.  With
    two items stamped [yesterday], deleting the first leaves the second
    stamped [yesterday]. *)
Theorem deleteContent_keeps_updatedAt (id : string) (prev : list Content) :
  let remaining := List.filter (λ item, negb (has_id id item)) prev in
  let next := deleteContent id prev in
  (∀ item, item ∈ next → has_id id item = false)
  ∧ orders next = range (length next)
  ∧ unordered <$> next = unordered <$> remaining
  ∧ stamps next = stamps remaining
  ∧ stamps (deleteContent "a" store_ab) = [Some (VStr yesterday)].
Proof.
  simpl. repeat split.
  - intros item [i Hi]%list_elem_of_lookup_1.
    rewrite deleteContent_lookup in Hi.
    destruct (_ !! i) as [item'|] eqn:Hi'; simplify_eq/=.
    rewrite has_id_insert_ne by done.
    apply filter_lookup_In in Hi' as [_ Hp]. by apply negb_true_iff.
  - apply numbered_orders, deleteContent_numbered.
  - apply list_eq. intros i.
    rewrite !list_lookup_fmap, deleteContent_lookup.
    destruct (_ !! i); simpl; [|done]. by rewrite unordered_insert_order.
  - apply list_eq. intros i. unfold stamps.
    rewrite !list_lookup_fmap, deleteContent_lookup.
    destruct (_ !! i); simpl; [|done]. by rewrite lookup_insert_ne.
Qed.

(** C3, as the code has it.  When [reorderContent] finds the id at
    [itemIndex] of a collection of N items, the sorted snapshot of its
    result has the moved item at position [min(max(k, 0), N - 1)], the
    other items around it in their previous relative order, nothing
    changed in any item but [order] and [updatedAt], and every item
    carrying its position as [order] and the clock reading as
    [updatedAt]. *)
Theorem reorderContent_places_item (id : string) (k : Z) (now : nat → string)
    (prev : list Content) (itemIndex : nat) :
  findIndex (has_id id) prev = Some itemIndex →
  ∃ movedItem snapshot,
    prev !! itemIndex = Some movedItem
    ∧ has_id id movedItem = true
    ∧ sortedContents (reorderContent id k now prev) = Some snapshot
    ∧ let others := delete itemIndex prev in
      let p := clamped k (length prev - 1) in
      (unstamped <$> snapshot) !! p = Some (unstamped movedItem)
      ∧ unstamped <$> snapshot =
          take p (unstamped <$> others)
            ++ unstamped movedItem :: drop p (unstamped <$> others)
      ∧ ∀ i item, snapshot !! i = Some item →
          item !! "order" = Some (num i)
          ∧ item !! "updatedAt" = Some (VStr (now i)).
Proof.
  intros Hfind.
  destruct (findIndex_Some _ _ _ Hfind) as (movedItem & Hitem & Hid & _).
  pose proof (reorderContent_found _ k now _ _ _ Hfind Hitem) as Heq.
  simpl in Heq. rewrite targetOrder_clamped in Heq.
  exists movedItem, (reorderContent id k now prev).
  split; [done|]. split; [done|]. split.
  { apply sortedContents_numbered. rewrite Heq. apply renumber_numbered. }
  simpl. rewrite Heq, unstamped_renumber.
  rewrite fmap_app, fmap_cons, fmap_take, fmap_drop.
  assert (clamped k (length prev - 1) ≤ length (delete itemIndex prev))%nat.
  { rewrite length_delete by eauto. apply clamped_le. }
  split; [|split; [done|]].
  - rewrite lookup_app_r; rewrite length_take, length_fmap; [|lia].
    by replace (_ - _) with 0 by lia.
  - intros i item. rewrite renumber_lookup.
    destruct (_ !! i); simpl; [|done]. intros [= <-].
    rewrite lookup_insert_ne by done.
    by rewrite !lookup_insert_eq.
Qed.

Lemma reorderContent_places_item_witness :
  findIndex (has_id "a") store_ab = Some 0
  ∧ ∃ movedItem snapshot,
      store_ab !! 0 = Some movedItem
      ∧ has_id "a" movedItem = true
      ∧ sortedContents (reorderContent "a" 5 clock store_ab) = Some snapshot
      ∧ (unstamped <$> snapshot) !! 1 = Some (unstamped movedItem).
Proof.
  split; [reflexivity|].
  destruct (reorderContent_places_item "a" 5 clock store_ab 0 eq_refl)
    as (movedItem & snapshot & H1 & H2 & H3 & H4 & _).
  exists movedItem, snapshot. done.
Defined.

(** C3, as stated: with N = 2 items, [reorderContent("a", 2)] would have to
    put the item at position [min(max(2, 0), 2) = 2]; the snapshot has no
    position 2, the item is at position 1. *)
Lemma reorderContent_not_at_N :
  ∃ snapshot,
    sortedContents (reorderContent "a" 2 clock store_ab) = Some snapshot
    ∧ clamped 2 (length store_ab) = 2
    ∧ snapshot !! clamped 2 (length store_ab) = None
    ∧ has_id "a" <$> snapshot !! 1 = Some true.
Proof. eexists. split; [reflexivity|]. done. Qed.

Lemma updateContent_lookup id contentUpdate now prev i :
  updateContent id contentUpdate now prev !! i =
    (λ item : Content,
       if has_id id item
       then <["updatedAt" := VStr (now i)]> (contentUpdate ∪ item)
       else item) <$> prev !! i.
Proof. unfold updateContent. by rewrite list_lookup_imap. Qed.

Lemma updateContent_absent id contentUpdate now prev :
  (∀ item, item ∈ prev → has_id id item = false) →
  updateContent id contentUpdate now prev = prev.
Proof.
  intros Habsent. apply list_eq. intros i. rewrite updateContent_lookup.
  destruct (prev !! i) as [item|] eqn:Hi; simpl; [|done].
  by rewrite (Habsent item (list_elem_of_lookup_2 _ _ _ Hi)).
Qed.

(** C8, as the code has it.  [updateContent] keeps the length of the
    collection and every item whose id differs, and returns the collection
    as it was when no item has the id.  In an item whose id matches,
    [updatedAt] becomes the clock reading, a field the update carries takes
    the value given, whichever field it is, and a field the update does not
    carry is unchanged; so [id], [type], [order] and [createdAt] are
    unchanged when the update has the type the function declares for it
    (none of these fields). *)
Theorem updateContent_merges_given_fields (id : string)
    (contentUpdate : Content) (now : nat → string) (prev : list Content) :
  let next := updateContent id contentUpdate now prev in
  length next = length prev
  ∧ (∀ i item, prev !! i = Some item → has_id id item = false →
       next !! i = Some item)
  ∧ (∀ i item, prev !! i = Some item → has_id id item = true →
       ∃ item' : Content,
         next !! i = Some item'
         ∧ item' !! "updatedAt" = Some (VStr (now i))
         ∧ (∀ key v, key ≠ "updatedAt" → contentUpdate !! key = Some v →
              item' !! key = Some v)
         ∧ (∀ key, key ≠ "updatedAt" → contentUpdate !! key = None →
              item' !! key = item !! key)
         ∧ (well_typed_update contentUpdate →
            ∀ key, key ∈ ["id"; "type"; "order"; "createdAt"] →
              item' !! key = item !! key))
  ∧ ((∀ item, item ∈ prev → has_id id item = false) → next = prev).
Proof.
  simpl. split; [|split; [|split]].
  - unfold updateContent. by rewrite length_imap.
  - intros i item Hi Hid.
    by rewrite updateContent_lookup, Hi; simpl; rewrite Hid.
  - intros i item Hi Hid. eexists.
    split; [by rewrite updateContent_lookup, Hi; simpl; rewrite Hid|].
    assert (∀ key, key ≠ "updatedAt" → contentUpdate !! key = None →
              (<["updatedAt" := VStr (now i)]> (contentUpdate ∪ item)
                 : Content) !! key = item !! key) as Hframe.
    { intros key Hkey Hnone. rewrite lookup_insert_ne by done.
      by rewrite lookup_union_r. }
    split; [by rewrite lookup_insert_eq|]. split; [|split; [done|]].
    + intros key v Hkey Hv.
      rewrite lookup_insert_ne by done. by apply lookup_union_Some_l.
    + intros Htyped key Hkey. rewrite !elem_of_cons, elem_of_nil in Hkey.
      apply Hframe; [|apply Htyped, omitted_spec; tauto].
      by destruct Hkey as [->|[->|[->|[->|[]]]]].
  - apply updateContent_absent.
Qed.

Lemma updateContent_merges_given_fields_witness :
  updateContent "b" new_text clock store_ab !! 0 = store_ab !! 0
  ∧ updateContent "zz" new_text clock store_ab = store_ab
  ∧ ∃ item' : Content,
      updateContent "b" new_text clock store_ab !! 1 = Some item'
      ∧ item' !! "updatedAt" = Some (VStr today)
      ∧ item' !! "content" = Some (VStr "hello")
      ∧ item' !! "order" = Some (num 1).
Proof.
  destruct (updateContent_merges_given_fields "b" new_text clock store_ab)
    as (_ & Hother & Hmatch & _).
  destruct (updateContent_merges_given_fields "zz" new_text clock store_ab)
    as (_ & _ & _ & Habsent).
  split; [by apply Hother|]. split; [by apply Habsent, findIndex_None|].
  destruct (Hmatch 1%nat _ eq_refl eq_refl)
    as (item' & Hitem' & Hstamp & Hgiven & _ & Htyped).
  exists item'. split; [done|]. split; [done|].
  split; [by apply Hgiven|].
  assert (well_typed_update new_text) as Hdeclared.
  { intros key Hkey%omitted_spec. apply lookup_singleton_None.
    by destruct Hkey as [->|[->|[->|[->| ->]]]]. }
  rewrite (Htyped Hdeclared "order"); [reflexivity|].
  rewrite !elem_of_cons. tauto.
Defined.

(** C8, as stated: an update that carries [order] changes the [order] of
    the matching item, here from 1 to 7. *)
Lemma updateContent_overwrites_order :
  has_id "b" <$> store_ab !! 1 = Some true
  ∧ orders store_ab = [Some (num 0); Some (num 1)]
  ∧ orders (updateContent "b" order_7 clock store_ab)
    = [Some (num 0); Some (num 7)].
Proof. repeat split. Qed.

End MutationFacts.

(** ** The content store: validation and loading *)

Module LoadFacts.
Import Store StoreFacts Examples.

Lemma strict_eq_str_true v s : strict_eq_str v s = true ↔ v = VStr s.
Proof.
  destruct v; simpl; try (split; [discriminate|congruence]).
  rewrite String.eqb_eq. split; congruence.
Qed.

Lemma includes_true strings v :
  includes strings v = true ↔ ∃ s, v = VStr s ∧ s ∈ strings.
Proof.
  unfold includes. rewrite existsb_exists. split.
  - intros (s & Hin & Heq). exists s.
    split; [by apply strict_eq_str_true|by apply list_elem_of_In].
  - intros (s & -> & Hin). exists s.
    split; [by apply list_elem_of_In|by apply strict_eq_str_true].
Qed.

Lemma validTypes_truthy ty : ty ∈ validTypes → truthy (VStr ty) = true.
Proof.
  unfold validTypes. rewrite !elem_of_cons, elem_of_nil.
  intros [->|[->|[->|[->|[->|[->|[]]]]]]]; reflexivity.
Qed.

Lemma typeof_number_true v : typeof_number v = true ↔ ∃ q, v = VNum q.
Proof.
  destruct v; simpl; split; try discriminate; try (by intros [? [=]]).
  by exists q.
Qed.

(** [validateContent] accepts exactly the values the specification calls
    structurally valid. *)
Lemma validateContent_spec v :
  validateContent v = true ↔ structurally_valid v.
Proof.
  split.
  - destruct v as [| | | | |elems|props];
      try (unfold validateContent; simpl; rewrite ?orb_true_r; discriminate).
    unfold validateContent. cbn [truthy typeof_object negb orb get].
    destruct (truthy (default VUndefined (props !! "id"))) eqn:Hid;
      cbn [negb orb]; [|discriminate].
    destruct (truthy (default VUndefined (props !! "type"))) eqn:Hty;
      cbn [negb orb]; [|discriminate].
    destruct (typeof_number (default VUndefined (props !! "order")))
      eqn:Hord; cbn [negb orb]; [|discriminate].
    intros (ty & Hty' & Hin)%includes_true.
    apply typeof_number_true in Hord as [q Hq].
    exists props, ty, q. repeat split; [done| |done|].
    + destruct (props !! "type") as [?|]; simpl in *; congruence.
    + destruct (props !! "order") as [?|]; simpl in *; congruence.
  - intros (props & ty & q & -> & Hid & Hty & Hin & Hord).
    pose proof (validTypes_truthy _ Hin) as Htruthy.
    unfold validateContent, get in *.
    assert (default VUndefined (props !! "type") = VStr ty) as ->
      by (by rewrite Hty).
    assert (default VUndefined (props !! "order") = VNum q) as ->
      by (by rewrite Hord).
    rewrite Hid, Htruthy. cbn [truthy typeof_object typeof_number negb orb].
    apply includes_true. by exists ty.
Qed.

Lemma Forall_validateContent elems :
  forallb validateContent elems = true ↔ Forall structurally_valid elems.
Proof.
  rewrite forallb_forall, Forall_forall.
  split; intros H v Hv; apply validateContent_spec, H; by apply list_elem_of_In.
Qed.

Lemma asContent_valid elems :
  Forall structurally_valid elems → VObj <$> omap asContent elems = elems.
Proof.
  induction 1 as [|v elems (props & ? & ? & -> & _) _ IH]; [done|].
  simpl. f_equal. apply IH.
Qed.

Lemma loadContents_valid elems :
  Forall structurally_valid elems →
  VObj <$> loadContents (Parsed (VArr elems)) = elems.
Proof.
  intros Hvalid. simpl.
  rewrite (proj2 (Forall_validateContent _) Hvalid).
  by apply asContent_valid.
Qed.

Lemma loadContents_items (items : list Content) :
  Forall structurally_valid (VObj <$> items) →
  loadContents (Parsed (VArr (VObj <$> items))) = items.
Proof.
  intros Hvalid.
  assert (Inj (=) (=) VObj) by (by intros ?? [=]).
  apply (inj (fmap VObj)). by apply loadContents_valid.
Qed.

(** C4. Loading is all or nothing: with no entry, a text that does not
    parse, a parsed value that is not an array, or an array in which some
    element is not structurally valid, the store starts empty; when every
    element is structurally valid the store starts with exactly the
    elements of the array, in their order. *)
Theorem loadContents_all_or_nothing :
  loadContents NoEntry = []
  ∧ loadContents Unparsable = []
  ∧ (∀ v, isArray v = None → loadContents (Parsed v) = [])
  ∧ (∀ elems, ¬ Forall structurally_valid elems →
       loadContents (Parsed (VArr elems)) = [])
  ∧ (∀ elems, Forall structurally_valid elems →
       VObj <$> loadContents (Parsed (VArr elems)) = elems).
Proof.
  split; [done|]. split; [done|]. split; [|split].
  - intros v Hv. simpl. by rewrite Hv.
  - intros elems Hinvalid. simpl.
    destruct (forallb validateContent elems) eqn:Hall; [|done].
    by apply Forall_validateContent in Hall.
  - apply loadContents_valid.
Qed.

Lemma loadContents_all_or_nothing_witness :
  loadContents (Parsed (VObj ∅)) = []
  ∧ loadContents (Parsed (VArr (VNull :: (VObj <$> store_ab)))) = []
  ∧ VObj <$> loadContents (Parsed (VArr (VObj <$> store_ab)))
    = VObj <$> store_ab.
Proof.
  destruct loadContents_all_or_nothing as (_ & _ & Hother & Hinvalid & Hvalid).
  split; [by apply Hother|]. split.
  - apply Hinvalid. intros Hall%Forall_validateContent. discriminate.
  - apply Hvalid, Forall_validateContent. reflexivity.
Defined.

(** C9. The validator accepts an object with a truthy [id] and a known
    [type] whatever number its [order] is, and an array of accepted objects
    is loaded as it is; so the persisted array holding the one item with
    [order = -1] becomes the store, whose orders are not the range
    [0, 1). *)
Theorem loadContents_keeps_any_order :
  (∀ (props : Content) (q : Q),
     validateContent (VObj props) = true →
     validateContent (VObj (<["order" := VNum q]> props)) = true)
  ∧ (∀ items : list Content,
       forallb validateContent (VObj <$> items) = true →
       loadContents (Parsed (VArr (VObj <$> items))) = items)
  ∧ ∃ items : list Content,
      loadContents (Parsed (VArr (VObj <$> items))) = items
      ∧ orders items = [Some (VNum (-1))]
      ∧ orders items ≠ range (length items).
Proof.
  split; [|split].
  - intros props q (props' & ty & q' & [= <-] & Hid & Hty & Hin & _)%validateContent_spec.
    apply validateContent_spec. exists (<["order" := VNum q]> props), ty, q.
    simpl in *. rewrite !lookup_insert_ne by done.
    by rewrite lookup_insert_eq.
  - intros items Hall. by apply loadContents_items, Forall_validateContent.
  - exists [item_minus1]. split; [reflexivity|]. split; [reflexivity|].
    discriminate.
Qed.

Lemma loadContents_keeps_any_order_witness :
  validateContent (VObj item_minus1) = true
  ∧ validateContent (VObj (<["order" := VNum (1 # 2)]> item_minus1)) = true
  ∧ loadContents (Parsed (VArr (VObj <$> [item_minus1; item_minus1])))
    = [item_minus1; item_minus1].
Proof.
  destruct loadContents_keeps_any_order as (Hany & Hload & _).
  split; [reflexivity|]. split.
  - apply Hany. reflexivity.
  - apply Hload. reflexivity.
Defined.

End LoadFacts.

(** ** The table editing form *)

Module TableFacts.
Import Store TableForm Examples.

(** The [forEach] over the rows, on the [data] array alone. *)
Lemma setValue_cells_data colId v idxs form :
  data (foldl (λ form' rowIndex, setValue_cell rowIndex colId v form')
              form idxs)
  = foldl (λ rows rowIndex, alter (λ row : Row, <[colId := v]> row) rowIndex rows)
          (data form) idxs.
Proof.
  revert form. induction idxs as [|i idxs IH]; intros form; simpl; [done|].
  by rewrite IH.
Qed.

Lemma setValue_cells_columns colId v idxs form :
  columns (foldl (λ form' rowIndex, setValue_cell rowIndex colId v form')
                 form idxs) = columns form.
Proof.
  revert form. induction idxs as [|i idxs IH]; intros form; simpl; [done|].
  by rewrite IH.
Qed.

Lemma setValue_cells_title colId v idxs form :
  title (foldl (λ form' rowIndex, setValue_cell rowIndex colId v form')
               form idxs) = title form.
Proof.
  revert form. induction idxs as [|i idxs IH]; intros form; simpl; [done|].
  by rewrite IH.
Qed.

Lemma alter_each {A} (f : A → A) (l : list A) n :
  (n ≤ length l)%nat →
  foldl (λ l' i, alter f i l') l (seq 0 n) = (f <$> take n l) ++ drop n l.
Proof.
  induction n as [|n IH]; intros Hn.
  - by rewrite take_0, drop_0.
  - rewrite seq_S, foldl_app, IH by lia. simpl.
    destruct (lookup_lt_is_Some_2 l n) as [x Hx]; [lia|].
    rewrite (take_S_r _ _ _ Hx), (drop_S _ _ _ Hx), fmap_app. simpl.
    replace n with (length (f <$> take n l) + 0)%nat at 1
      by (rewrite length_fmap, length_take; lia).
    rewrite alter_app_r. simpl. by rewrite <- app_assoc.
Qed.

Lemma handleAddColumn_columns newColId form :
  columns (handleAddColumn newColId form)
  = columns form ++ [{| id := newColId; header := "" |}].
Proof. unfold handleAddColumn. by rewrite setValue_cells_columns. Qed.

Lemma handleAddColumn_data newColId form :
  data (handleAddColumn newColId form)
  = (λ row : Row, <[newColId := ""]> row) <$> data form.
Proof.
  unfold handleAddColumn, dataFields. rewrite setValue_cells_data. simpl.
  rewrite alter_each by done. by rewrite firstn_all, drop_all, app_nil_r.
Qed.

Lemma handleAddColumn_title newColId form :
  title (handleAddColumn newColId form) = title form.
Proof. unfold handleAddColumn. by rewrite setValue_cells_title. Qed.




Lemma cell_default (row : Row) (col : Column) :
  cell row col = default "" (row !! id col).
Proof.
  unfold cell. destruct (row !! id col) as [s|]; simpl; [|done].
  by destruct (String.eqb_spec s "") as [->|].
Qed.

Lemma projectRow_snoc cols col row :
  projectRow (cols ++ [col]) row
  = <[header col := cell row col]> (projectRow cols row).
Proof. unfold projectRow. by rewrite foldl_app. Qed.

Lemma last_with_header_snoc h cols col :
  last_with_header h (cols ++ [col])
  = if String.eqb (header col) h then Some col else last_with_header h cols.
Proof.
  unfold last_with_header. rewrite List.filter_app. simpl.
  destruct (String.eqb (header col) h).
  - by rewrite last_snoc.
  - by rewrite app_nil_r.
Qed.

(** What [onSubmit] stores under a header: the cell of the last column
    with that header. *)
Lemma projectRow_lookup cols row h :
  projectRow cols row !! h = cell row <$> last_with_header h cols.
Proof.
  induction cols as [|col cols IH] using rev_ind; [done|].
  rewrite projectRow_snoc, last_with_header_snoc.
  destruct (String.eqb_spec (header col) h) as [<-|Hne].
  - by rewrite lookup_insert_eq.
  - by rewrite lookup_insert_ne.
Qed.


Lemma last_with_header_final h cols1 col cols2 :
  header col = h → (∀ col', col' ∈ cols2 → header col' ≠ h) →
  last_with_header h (cols1 ++ col :: cols2) = Some col.
Proof.
  intros Hcol Hlater. unfold last_with_header.
  rewrite List.filter_app. simpl.
  rewrite (proj2 (String.eqb_eq _ _) Hcol).
  assert (List.filter (λ col, String.eqb (header col) h) cols2 = []) as ->.
  { induction cols2 as [|col' cols2 IH]; simpl; [done|].
    destruct (String.eqb_spec (header col') h) as [Heq|_].
    - destruct (Hlater col'); [apply list_elem_of_here|done].
    - apply IH. intros col'' Hin. apply Hlater. by apply list_elem_of_further. }
  apply last_snoc.
Qed.

Lemma tableFormSchema_true values :
  tableFormSchema values = true ↔
    title values ≠ ""
    ∧ (∀ col, col ∈ columns values → header col ≠ "")
    ∧ columns values ≠ [] ∧ data values ≠ [].
Proof.
  assert (∀ s, (1 <=? String.length s)%nat = true ↔ s ≠ "") as Hstr.
  { intros [|a s]; simpl; split; done. }
  assert (∀ {A} (l : list A), (1 <=? length l)%nat = true ↔ l ≠ []) as Hlist.
  { intros A [|a l]; simpl; split; done. }
  unfold tableFormSchema. rewrite !andb_true_iff, forallb_forall.
  rewrite Hstr, !Hlist. split.
  - intros [[[Ht Hh] Hc] Hd]. repeat split; [done| |done..].
    intros col Hin. by apply Hstr, Hh, list_elem_of_In.
  - intros (Ht & Hh & Hc & Hd). repeat split; [done| |done..].
    intros col Hin. by apply Hstr, Hh, list_elem_of_In.
Qed.



(** C7. [handleRemoveColumn] on an existing column removes it from
    [columns] and, in every row, removes the key that is the column's id
    and nothing else; the number of rows is unchanged.  The remove button
    is disabled while there is at most one column: a click then leaves the
    form as it is, so a form with a column keeps having one. *)
Theorem removeColumn_strips_key (index : nat) (col : Column)
    (form : TableFormValues) :
  columns form !! index = Some col →
  let form' := handleRemoveColumn index form in
  columns form' = delete index (columns form)
  ∧ length (data form') = length (data form)
  ∧ (∀ i row, data form !! i = Some row →
       ∃ row' : Row,
         data form' !! i = Some row'
         ∧ row' !! id col = None
         ∧ ∀ colId, colId ≠ id col → row' !! colId = row !! colId)
  ∧ ((length (columns form) ≤ 1)%nat → clickRemoveColumn index form = form)
  ∧ ((1 ≤ length (columns form))%nat →
       (1 ≤ length (columns (clickRemoveColumn index form)))%nat).
Proof.
  intros Hcol. simpl. unfold handleRemoveColumn. rewrite Hcol. simpl.
  split; [done|]. split; [by rewrite length_fmap|]. split; [|split].
  - intros i row Hrow. exists (delete (id col) row).
    split; [by rewrite list_lookup_fmap, Hrow|].
    split; [by rewrite lookup_delete_eq|].
    intros colId Hne. by rewrite lookup_delete_ne.
  - intros Hone. unfold clickRemoveColumn, removeColumn_disabled, columnFields.
    by rewrite (proj2 (Nat.leb_le _ _) Hone).
  - intros Hsome. unfold clickRemoveColumn, removeColumn_disabled, columnFields.
    destruct (Nat.leb_spec (length (columns form)) 1) as [|Hmore]; [done|].
    unfold handleRemoveColumn. simpl.
    rewrite length_delete by eauto. lia.
Qed.

Lemma removeColumn_strips_key_witness :
  columns form_two !! 1 = Some {| id := "b"; header := "Age" |}
  ∧ columns (handleRemoveColumn 1 form_two)
    = [{| id := "a"; header := "Name" |}]
  ∧ length (data (handleRemoveColumn 1 form_two)) = 1.
Proof.
  split; [reflexivity|].
  destruct (removeColumn_strips_key 1 {| id := "b"; header := "Age" |}
              form_two eq_refl) as (Hcols & Hlen & _).
  split; [exact Hcols|exact Hlen].
Defined.

(** C10. When two columns carry the same header and no later column does,
    the submitted row binds that header to the cell of the second one; the
    cell of the first is not in the row.  With columns [a] and [b] both
    headed ["Name"] and the row [{a: "Alice", b: "Bob"}] the payload row is
    [{Name: "Bob"}]. *)
Theorem duplicate_header_last_wins (cols1 cols2 cols3 : list Column)
    (col1 col2 : Column) (row : Row) :
  header col1 = header col2 →
  (∀ col, col ∈ cols3 → header col ≠ header col2) →
  projectRow (cols1 ++ col1 :: cols2 ++ col2 :: cols3) row !! header col1
  = Some (default "" (row !! id col2)).
Proof.
  intros Hsame Hlater. rewrite projectRow_lookup, Hsame.
  change (cols1 ++ col1 :: cols2 ++ col2 :: cols3)
    with (cols1 ++ (col1 :: cols2) ++ col2 :: cols3).
  rewrite app_assoc.
  rewrite (last_with_header_final _ _ col2 cols3) by done.
  simpl. by rewrite cell_default.
Qed.

Lemma duplicate_header_last_wins_witness :
  projectRow (columns form_dup) (<["a" := "Alice"]> {["b" := "Bob"]}) !! "Name"
  = Some "Bob"
  ∧ payload_data (contentToAdd form_dup) = [{["Name" := "Bob"]}].
Proof.
  split; [|reflexivity].
  apply (duplicate_header_last_wins [] [] []
           {| id := "a"; header := "Name" |} {| id := "b"; header := "Name" |}).
  - reflexivity.
  - intros col Hin. by apply elem_of_nil in Hin.
Defined.

End TableFacts.

(** ** Further facts about the array primitives *)

Section SortFacts.
Context {A : Type} (le : A → A → bool).
Implicit Types (l : list A).

Lemma findIndex_intro (p : A → bool) l i x :
  l !! i = Some x → p x = true →
  (∀ j y, (j < i)%nat → l !! j = Some y → p y = false) →
  findIndex p l = Some i.
Proof.
  revert i. induction l as [|a l IH]; intros [|i] Hx Hp Hbefore;
    simplify_eq/=.
  - by rewrite Hp.
  - rewrite (Hbefore 0%nat a) by (done || lia). simpl.
    rewrite (IH i); [done..|].
    intros j y Hj Hy. apply (Hbefore (S j)); [lia|done].
Qed.

Lemma filter_all (p : A → bool) l :
  (∀ x, x ∈ l → p x = true) → List.filter p l = l.
Proof.
  induction l as [|a l IH]; intros Hall; simpl; [done|].
  rewrite (Hall a) by apply list_elem_of_here.
  f_equal. apply IH. intros x Hx. apply Hall. by apply list_elem_of_further.
Qed.

Lemma insert_by_Permutation x l : insert_by le x l ≡ₚ x :: l.
Proof.
  induction l as [|y l IH]; simpl; [done|].
  destruct (le x y); [done|]. rewrite IH. apply Permutation_swap.
Qed.

Lemma sort_by_Permutation l : sort_by le l ≡ₚ l.
Proof.
  induction l as [|x l IH]; [done|].
  unfold sort_by in *. simpl. by rewrite insert_by_Permutation, IH.
Qed.

Hypothesis le_total : ∀ a b, le a b = false → le b a = true.

Lemma insert_by_Sorted x l :
  Sorted (λ a b, le a b = true) l →
  Sorted (λ a b, le a b = true) (insert_by le x l).
Proof.
  induction 1 as [|y l Hl IH Hhd]; simpl.
  - by repeat constructor.
  - destruct (le x y) eqn:Hxy.
    + by repeat constructor.
    + constructor; [done|].
      destruct Hhd as [|z l' Hyz]; simpl.
      * constructor. by apply le_total.
      * destruct (le x z); constructor; [by apply le_total|done].
Qed.

Lemma sort_by_Sorted l : Sorted (λ a b, le a b = true) (sort_by le l).
Proof.
  induction l as [|x l IH]; [constructor|].
  unfold sort_by in *. simpl. by apply insert_by_Sorted.
Qed.

End SortFacts.

Lemma Sorted_fmap_Forall {A B} (P : A → Prop) (R : relation A)
    (R' : relation B) (f : A → B) (l : list A) :
  (∀ a b, P a → P b → R a b → R' (f a) (f b)) →
  Forall P l → Sorted R l → Sorted R' (f <$> l).
Proof.
  intros Hmono Hall Hsorted. induction Hsorted as [|a l Hl IH Hhd]; simpl.
  - constructor.
  - apply Forall_cons in Hall as [Ha Hall]. constructor; [by apply IH|].
    destruct Hhd as [|b l' Hab]; simpl; constructor.
    apply Forall_cons in Hall as [Hb _]. by apply Hmono.
Qed.

Lemma move_back {A} (L : list A) (i p : nat) (x : A) :
  L !! i = Some x → (p ≤ length L - 1)%nat →
  let M := take p (delete i L) ++ x :: drop p (delete i L) in
  delete p M = delete i L
  ∧ take i (delete p M) ++ x :: drop i (delete p M) = L.
Proof.
  intros Hx Hp. simpl.
  assert (delete p (take p (delete i L) ++ x :: drop p (delete i L))
          = delete i L) as ->.
  { replace p with (length (take p (delete i L))) at 1.
    - by rewrite delete_middle, take_drop.
    - rewrite length_take, length_delete by eauto. lia. }
  split; [done|].
  rewrite (delete_take_drop L i), take_app_length', drop_app_length';
    [|rewrite length_take; apply lookup_lt_Some in Hx; lia..].
  by apply take_drop_middle.
Qed.

(** ** Further facts about the content store *)

Module StoreExtras.
Import Store StoreFacts SnapshotFacts MutationFacts LoadFacts Examples.

Lemma has_id_stamp id u o (item : Content) :
  has_id id (<["updatedAt" := u]> (<["order" := o]> item)) = has_id id item.
Proof. by rewrite !has_id_insert_ne. Qed.

Lemma has_id_new id (item : Content) :
  item !! "id" = Some (VStr id) → has_id id item = true.
Proof. intros Hid. unfold has_id. rewrite Hid. simpl. apply String.eqb_refl. Qed.

Lemma deleteContent_removes id prev (item : Content) :
  item ∈ deleteContent id prev → has_id id item = false.
Proof.
  intros [i Hi]%list_elem_of_lookup_1. rewrite deleteContent_lookup in Hi.
  destruct (_ !! i) as [item'|] eqn:Hi'; simplify_eq/=.
  rewrite has_id_insert_ne by done.
  apply filter_lookup_In in Hi' as [_ Hp]. by apply negb_true_iff.
Qed.

Lemma deleteContent_absent id prev :
  (∀ item, item ∈ prev → has_id id item = false) →
  deleteContent id prev = imap (λ index item, <["order" := num index]> item) prev.
Proof.
  intros Habsent. unfold deleteContent. rewrite filter_all; [done|].
  intros item Hin. by rewrite (Habsent item Hin).
Qed.

Lemma renumber_order_numbered prev :
  numbered prev →
  imap (λ index (item : Content), <["order" := num index]> item) prev = prev.
Proof.
  intros Hnum. apply list_eq. intros i. rewrite list_lookup_imap.
  destruct (prev !! i) as [item|] eqn:Hi; simpl; [|done].
  f_equal. apply insert_id. by apply Hnum.
Qed.

(** X1. [updateContent] with fields of its declared type keeps every item's
    [order], so a collection numbered by position stays so and its sorted
    snapshot is the collection itself. *)
Theorem updateContent_keeps_numbering (id : string) (contentUpdate : Content)
    (now : nat → string) (prev : list Content) :
  well_typed_update contentUpdate → numbered prev →
  orders (updateContent id contentUpdate now prev) = orders prev
  ∧ numbered (updateContent id contentUpdate now prev)
  ∧ sortedContents (updateContent id contentUpdate now prev)
    = Some (updateContent id contentUpdate now prev).
Proof.
  intros Htyped Hnum.
  assert (orders (updateContent id contentUpdate now prev) = orders prev)
    as Horders.
  { apply list_eq. intros i. unfold orders.
    rewrite !list_lookup_fmap, updateContent_lookup.
    destruct (prev !! i) as [item|]; simpl; [|done].
    destruct (has_id id item); [|done].
    rewrite lookup_insert_ne by done. rewrite lookup_union_r; [done|].
    apply Htyped, omitted_spec. tauto. }
  assert (numbered (updateContent id contentUpdate now prev)) as Hnum'.
  { intros i item. rewrite updateContent_lookup.
    destruct (prev !! i) as [item'|] eqn:Hi; simpl; [|done].
    intros [= <-]. destruct (has_id id item'); [|by apply Hnum].
    rewrite lookup_insert_ne by done.
    rewrite lookup_union_r; [by apply Hnum|].
    apply Htyped, omitted_spec. tauto. }
  split; [done|]. split; [done|]. by apply sortedContents_numbered.
Qed.

Lemma updateContent_keeps_numbering_witness :
  orders (updateContent "b" new_text clock (run [Add ∅ "a" today; Add ∅ "b" today]))
  = range 2.
Proof.
  assert (well_typed_update new_text) as Htyped.
  { intros key Hkey%omitted_spec. apply lookup_singleton_None.
    by destruct Hkey as [->|[->|[->|[->| ->]]]]. }
  destruct (updateContent_keeps_numbering "b" new_text clock
              (run [Add ∅ "a" today; Add ∅ "b" today]) Htyped
              (run_numbered _)) as (Horders & _).
  rewrite Horders. reflexivity.
Defined.

(** X2. Deleting twice is deleting once. *)
Theorem deleteContent_idempotent (id : string) (prev : list Content) :
  deleteContent id (deleteContent id prev) = deleteContent id prev.
Proof.
  rewrite deleteContent_absent by apply deleteContent_removes.
  apply renumber_order_numbered, deleteContent_numbered.
Qed.

(** X3. [deleteContent] with an id no item has keeps every item and changes
    nothing but [order], which it still rewrites to the position: on a
    collection numbered by position it is the identity, on one loaded with
    other orders it is not. *)
Theorem deleteContent_unknown_id (id : string) (prev : list Content) :
  (∀ item, item ∈ prev → has_id id item = false) →
  length (deleteContent id prev) = length prev
  ∧ unordered <$> deleteContent id prev = unordered <$> prev
  ∧ orders (deleteContent id prev) = range (length prev)
  ∧ (numbered prev → deleteContent id prev = prev).
Proof.
  intros Habsent.
  assert (length (deleteContent id prev) = length prev) as Hlen.
  { rewrite deleteContent_absent by done. by rewrite length_imap. }
  split; [done|]. split; [|split].
  - rewrite deleteContent_absent by done. apply list_eq. intros i.
    rewrite !list_lookup_fmap, list_lookup_imap.
    destruct (prev !! i); simpl; [|done]. by rewrite unordered_insert_order.
  - rewrite <- Hlen. apply numbered_orders, deleteContent_numbered.
  - intros Hnum. rewrite deleteContent_absent by done.
    by apply renumber_order_numbered.
Qed.

Lemma deleteContent_unknown_id_witness :
  deleteContent "zz" store_ab = store_ab
  ∧ orders (deleteContent "zz" [item_minus1]) = range 1.
Proof.
  split.
  - apply (deleteContent_unknown_id "zz" store_ab).
    + by apply findIndex_None.
    + intros [|[|i]] item; simpl; intros [= <-]; reflexivity.
  - apply (deleteContent_unknown_id "zz" [item_minus1]).
    by apply findIndex_None.
Defined.

(** X4. On a collection numbered by position, adding an item under an id that
    is not in use and deleting that id gives back the collection. *)
Theorem add_then_delete (contentData : Content) (uuid now : string)
    (prev : list Content) :
  numbered prev →
  (∀ item, item ∈ prev → has_id uuid item = false) →
  deleteContent uuid (addContent (length prev) contentData uuid now prev)
  = prev.
Proof.
  intros Hnum Hfresh. unfold deleteContent, addContent.
  rewrite List.filter_app. simpl.
  rewrite has_id_new;
    [|rewrite !lookup_insert_ne by done; by rewrite lookup_insert_eq].
  simpl. rewrite app_nil_r, filter_all.
  - by apply renumber_order_numbered.
  - intros item Hin. by rewrite (Hfresh item Hin).
Qed.

Lemma add_then_delete_witness :
  deleteContent "c"
    (addContent 2 new_text "c" today
       (run [Add ∅ "a" today; Add ∅ "b" today]))
  = run [Add ∅ "a" today; Add ∅ "b" today].
Proof.
  apply (add_then_delete new_text "c" today
           (run [Add ∅ "a" today; Add ∅ "b" today])).
  - apply run_numbered.
  - by apply findIndex_None.
Defined.

(** X5. [reorderContent] neither drops nor duplicates items: the result has the
    length of the collection and, [order] and [updatedAt] apart, the same
    items. *)
Theorem reorderContent_permutes (id : string) (k : Z) (now : nat → string)
    (prev : list Content) :
  length (reorderContent id k now prev) = length prev
  ∧ unstamped <$> reorderContent id k now prev ≡ₚ unstamped <$> prev.
Proof.
  assert (unstamped <$> reorderContent id k now prev ≡ₚ unstamped <$> prev)
    as Hperm.
  { destruct (findIndex (has_id id) prev) as [itemIndex|] eqn:Hfind.
    - destruct (findIndex_Some _ _ _ Hfind) as (movedItem & Hitem & _).
      rewrite (reorderContent_found _ k now _ _ _ Hfind Hitem). simpl.
      rewrite unstamped_renumber. apply fmap_Permutation.
      rewrite <- Permutation_middle, take_drop.
      symmetry. by apply delete_Permutation.
    - by rewrite reorderContent_absent. }
  split; [|done].
  apply Permutation_length in Hperm. by rewrite !length_fmap in Hperm.
Qed.

(** X6. When only one item has the id, moving it anywhere and then back to the
    index it came from restores the collection, [order] and [updatedAt]
    apart. *)
Theorem reorderContent_back (id : string) (k : Z) (now now' : nat → string)
    (prev : list Content) (itemIndex : nat) :
  findIndex (has_id id) prev = Some itemIndex →
  only_at id itemIndex prev →
  unstamped <$>
    reorderContent id (Z.of_nat itemIndex) now'
      (reorderContent id k now prev)
  = unstamped <$> prev.
Proof.
  intros Hfind Honly.
  destruct (findIndex_Some _ _ _ Hfind) as (movedItem & Hitem & Hid & _).
  pose proof (lookup_lt_Some _ _ _ Hitem) as Hlt.
  rewrite (reorderContent_found _ k now _ _ _ Hfind Hitem). simpl.
  rewrite targetOrder_clamped.
  set (p := clamped k (length prev - 1)).
  set (others := delete itemIndex prev).
  set (mid := renumber now (take p others ++ movedItem :: drop p others)).
  assert (p ≤ length prev - 1)%nat as Hp by apply clamped_le.
  assert (length others = length prev - 1)%nat as Hothers.
  { unfold others. rewrite length_delete by eauto. done. }
  assert (∀ j item, others !! j = Some item → has_id id item = false)
    as Hothers_id.
  { intros j item Hj. destruct (has_id id item) eqn:Hitem_id; [|done].
    unfold others in Hj. destruct (decide (j < itemIndex)%nat).
    - rewrite list_lookup_delete_lt in Hj by done.
      specialize (Honly _ _ Hj Hitem_id). lia.
    - rewrite list_lookup_delete_ge in Hj by lia.
      specialize (Honly _ _ Hj Hitem_id). lia. }
  set (stamped := <["updatedAt" := VStr (now p)]>
                    (<["order" := num p]> movedItem) : Content).
  assert (mid !! p = Some stamped) as Hmid.
  { unfold mid. rewrite renumber_lookup, lookup_app_r;
      rewrite length_take; [|lia].
    by replace (p - p `min` length others)%nat with 0%nat by lia. }
  assert (findIndex (has_id id) mid = Some p) as Hfind'.
  { apply (findIndex_intro _ _ _ stamped); [done| |].
    - unfold stamped. by rewrite has_id_stamp.
    - intros j item Hj. unfold mid. rewrite renumber_lookup.
      rewrite lookup_app_l by (rewrite length_take; lia).
      rewrite lookup_take_lt by done.
      destruct (others !! j) as [item'|] eqn:Hj'; simpl; [|done].
      intros [= <-]. rewrite has_id_stamp. by apply (Hothers_id j). }
  rewrite (reorderContent_found _ _ now' _ _ _ Hfind' Hmid). simpl.
  rewrite unstamped_renumber, targetOrder_clamped.
  assert (clamped (Z.of_nat itemIndex) (length mid - 1) = itemIndex) as ->.
  { unfold mid. rewrite renumber_length, length_app, length_take. simpl.
    rewrite length_drop. unfold clamped. lia. }
  rewrite fmap_app, fmap_cons, fmap_take, fmap_drop, list_fmap_delete.
  unfold mid, stamped. rewrite unstamped_renumber, unstamped_stamp.
  rewrite fmap_app, fmap_cons, fmap_take, fmap_drop.
  unfold others. rewrite list_fmap_delete.
  apply (move_back (unstamped <$> prev) itemIndex p (unstamped movedItem)).
  - by rewrite list_lookup_fmap, Hitem.
  - by rewrite length_fmap.
Qed.

Lemma reorderContent_back_witness :
  unstamped <$> reorderContent "a" 0 clock (reorderContent "a" 5 clock store_ab)
  = unstamped <$> store_ab.
Proof.
  apply (reorderContent_back "a" 5 clock clock store_ab 0).
  - reflexivity.
  - intros [|[|j]] item; simpl; intros [= <-]; [done|discriminate].
Defined.

(** X7. Two [addContent] calls from the same render close over the same
    [contents.length]: both new items get that number as [order], so the
    orders are no longer free of duplicates. *)
Theorem addContent_same_render (contents_length : nat)
    (contentData1 contentData2 : Content) (uuid1 uuid2 now1 now2 : string)
    (prev : list Content) :
  let next :=
    addContent contents_length contentData2 uuid2 now2
      (addContent contents_length contentData1 uuid1 now1 prev) in
  orders next
  = orders prev ++ [Some (num contents_length); Some (num contents_length)]
  ∧ ¬ NoDup (orders next)
  ∧ ¬ numbered next.
Proof.
  simpl.
  assert (orders
            (addContent contents_length contentData2 uuid2 now2
               (addContent contents_length contentData1 uuid1 now1 prev))
          = orders prev
              ++ [Some (num contents_length); Some (num contents_length)])
    as Horders.
  { unfold addContent, orders. rewrite !fmap_app, <- app_assoc. simpl.
    by simplify_map_eq. }
  split; [done|]. split.
  - rewrite Horders. intros [_ [_ Hdup]]%NoDup_app.
    apply NoDup_cons in Hdup as [Hin _]. apply Hin, list_elem_of_here.
  - intros Hnum. apply numbered_orders in Hnum. rewrite Horders in Hnum.
    assert (length (addContent contents_length contentData2 uuid2 now2
              (addContent contents_length contentData1 uuid1 now1 prev))
            = S (S (length prev))) as Hlen.
    { unfold addContent. rewrite !length_app. simpl. lia. }
    rewrite Hlen in Hnum. unfold range in Hnum.
    rewrite !seq_S, !fmap_app in Hnum. simpl in Hnum.
    rewrite <- app_assoc in Hnum. simpl in Hnum.
    assert (length (orders prev) = length
              ((λ i, Some (num i)) <$> seq 0 (length prev))) as Hsame.
    { unfold orders. by rewrite !length_fmap, length_seq. }
    apply app_inj_1 in Hnum as [_ Htail]; [|done].
    injection Htail as H1 H2. lia.
Qed.

End StoreExtras.

(** ** The sorted snapshot, validation and the type guards *)

Module ValidationExtras.
Import Store StoreFacts SnapshotFacts MutationFacts LoadFacts StoreExtras.
Import ContentTypes TableForm Examples.

Lemma compare_order_le (a b : Q * Content) :
  compare_order a b = true ↔ (a.1 <= b.1)%Q.
Proof.
  unfold compare_order. rewrite Qle_bool_iff. split; intros; lra.
Qed.

Lemma compare_order_total (a b : Q * Content) :
  compare_order a b = false → compare_order b a = true.
Proof.
  intros Hab. apply compare_order_le.
  apply not_true_iff_false in Hab. rewrite compare_order_le in Hab.
  apply Qnot_le_lt in Hab. lra.
Qed.

Lemma keyed_Forall2 (contents : list Content) (keyed : list (Q * Content)) :
  Forall2 (λ item k, (q ← order_of item; Some (q, item)) = Some k)
          contents keyed →
  snd <$> keyed = contents
  ∧ Forall (λ k, order_of k.2 = Some k.1) keyed.
Proof.
  induction 1 as [|item k contents keyed Hk _ [IH1 IH2]]; [done|].
  destruct (order_of item) as [q|] eqn:Hq; simplify_eq/=.
  split; [done|]. by constructor.
Qed.

(** X8. The snapshot of a collection whose orders are all numbers, whatever
    they are: it has the items of the collection, each as often as the
    collection, in non-decreasing [order]. *)
Theorem sortedContents_sorts (contents : list Content) :
  Forall (λ item, is_Some (order_of item)) contents →
  ∃ snapshot,
    sortedContents contents = Some snapshot
    ∧ snapshot ≡ₚ contents
    ∧ Sorted order_le snapshot.
Proof.
  intros Hall.
  assert (is_Some (mapM (λ item, q ← order_of item; Some (q, item)) contents))
    as [keyed Hkeyed].
  { apply mapM_is_Some. eapply Forall_impl; [done|].
    intros item [q Hq]. simpl. rewrite Hq. by eexists. }
  destruct (keyed_Forall2 _ _ (mapM_Some_1 _ _ _ Hkeyed)) as [Hsnd Hkeys].
  exists (snd <$> sort_by compare_order keyed).
  split; [unfold sortedContents; by rewrite Hkeyed|]. split.
  - rewrite <- Hsnd. apply fmap_Permutation, sort_by_Permutation.
  - apply (Sorted_fmap_Forall (λ k, order_of k.2 = Some k.1)
             (λ a b, compare_order a b = true)).
    + intros a b Ha Hb Hab. unfold order_le. rewrite Ha, Hb.
      by apply compare_order_le.
    + by rewrite sort_by_Permutation.
    + apply sort_by_Sorted, compare_order_total.
Qed.

Lemma sortedContents_sorts_witness :
  ∃ snapshot,
    sortedContents [item "b" "title" 1 yesterday; item_minus1] = Some snapshot
    ∧ snapshot ≡ₚ [item "b" "title" 1 yesterday; item_minus1]
    ∧ Sorted order_le snapshot.
Proof.
  apply (sortedContents_sorts [item "b" "title" 1 yesterday; item_minus1]).
  repeat constructor; eexists; reflexivity.
Defined.

Lemma validateContent_non_object v :
  asContent v = None → validateContent v = false.
Proof.
  destruct v; try discriminate; intros _;
    unfold validateContent; simpl; by rewrite ?orb_true_r.
Qed.

Lemma validateContent_ext (props1 props2 : Content) :
  (∀ key, key ∈ ["id"; "type"; "order"] → props1 !! key = props2 !! key) →
  validateContent (VObj props1) = validateContent (VObj props2).
Proof.
  intros Hsame. unfold validateContent, get.
  rewrite (Hsame "id"), (Hsame "type"), (Hsame "order"); [done|..];
    rewrite !elem_of_cons; tauto.
Qed.

Lemma validateContent_insert_other key v (props : Content) :
  key ∉ ["id"; "type"; "order"] →
  validateContent (VObj (<[key := v]> props)) = validateContent (VObj props).
Proof.
  intros Hkey. apply validateContent_ext. intros key' Hin.
  apply lookup_insert_ne. by intros ->.
Qed.

Lemma validateContent_insert_order q (props : Content) :
  validateContent (VObj props) = true →
  validateContent (VObj (<["order" := VNum q]> props)) = true.
Proof.
  intros (props' & ty & q' & [= <-] & Hid & Hty & Hin & _)%validateContent_spec.
  apply validateContent_spec. exists (<["order" := VNum q]> props), ty, q.
  simpl in *. rewrite !lookup_insert_ne by done.
  by rewrite lookup_insert_eq.
Qed.

Lemma validateContent_stamp u n (item : Content) :
  validateContent (VObj item) = true →
  validateContent
    (VObj (<["updatedAt" := VStr u]> (<["order" := num n]> item))) = true.
Proof.
  intros Hvalid. rewrite validateContent_insert_other.
  - by apply validateContent_insert_order.
  - rewrite !elem_of_cons, elem_of_nil. by intros [|[|[|]]].
Qed.

(** X9. [validateContent] turns down everything that is not a plain object,
    arrays included, and of an object it reads [id], [type] and [order]
    only: two objects that agree on these get the same verdict, whatever
    else they hold or lack. *)
Theorem validateContent_inspects :
  (∀ v, asContent v = None → validateContent v = false)
  ∧ (∀ props1 props2 : Content,
       (∀ key, key ∈ ["id"; "type"; "order"] → props1 !! key = props2 !! key) →
       validateContent (VObj props1) = validateContent (VObj props2)).
Proof. split; [apply validateContent_non_object|apply validateContent_ext]. Qed.

Lemma validateContent_inspects_witness :
  validateContent (VArr [VObj item_minus1]) = false
  ∧ validateContent (VObj (delete "createdAt" item_minus1))
    = validateContent (VObj item_minus1).
Proof.
  destruct validateContent_inspects as [Hnon Hext]. split.
  - by apply Hnon.
  - apply Hext. intros key Hin. apply lookup_delete_ne.
    rewrite !elem_of_cons, elem_of_nil in Hin.
    by destruct Hin as [->|[->|[->|[]]]].
Defined.

(** X10. Whatever the storage holds, every item the store starts with has
    passed [validateContent]. *)
Theorem loadContents_validated (s : saved) (item : Content) :
  item ∈ loadContents s → validateContent (VObj item) = true.
Proof.
  destruct s as [| |v]; simpl; try (by intros ?%elem_of_nil).
  destruct (isArray v) as [elems|] eqn:Harr; [|by intros ?%elem_of_nil].
  destruct (forallb validateContent elems) eqn:Hall;
    [|by intros ?%elem_of_nil].
  intros (v' & Hin & Hv')%list_elem_of_omap.
  destruct v'; simplify_eq/=.
  rewrite forallb_forall in Hall. by apply Hall, list_elem_of_In.
Qed.

Lemma loadContents_validated_witness :
  validateContent (VObj item_minus1) = true.
Proof.
  apply (loadContents_validated (Parsed (VArr [VObj item_minus1]))).
  apply list_elem_of_here.
Defined.

Lemma addContent_new_valid n (contentData : Content) uuid now :
  typed_data contentData → uuid ≠ "" →
  validateContent
    (VObj (<["updatedAt" := VStr now]>
             (<["createdAt" := VStr now]>
               (<["order" := num n]>
                 (<["id" := VStr uuid]> contentData))))) = true.
Proof.
  intros (ty & Hty & Hin) Huuid. apply validateContent_spec.
  eexists _, ty, _. split; [done|]. simpl.
  rewrite !lookup_insert_ne by done. rewrite !lookup_insert_eq.
  rewrite !lookup_insert_ne by done. rewrite lookup_insert_eq. simpl.
  repeat split; [|done..].
  by destruct (String.eqb_spec uuid "").
Qed.

Lemma step_valid contents o :
  typed_op o →
  Forall (λ item, validateContent (VObj item) = true) contents →
  Forall (λ item, validateContent (VObj item) = true) (step contents o).
Proof.
  intros Htyped Hvalid.
  destruct o as [contentData uuid now|id|id newOrder now]; simpl.
  - destruct Htyped as [Hdata Huuid]. unfold addContent.
    apply Forall_app. split; [done|].
    constructor; [|done]. by apply addContent_new_valid.
  - apply Forall_lookup. intros i item. rewrite deleteContent_lookup.
    destruct (_ !! i) as [item'|] eqn:Hi; simpl; [|done]. intros [= <-].
    apply validateContent_insert_order.
    apply filter_lookup_In in Hi as [Hin _].
    by apply (proj1 (Forall_forall _ _) Hvalid).
  - destruct (findIndex (has_id id) contents) as [itemIndex|] eqn:Hfind.
    + destruct (findIndex_Some _ _ _ Hfind) as (movedItem & Hitem & _).
      rewrite (reorderContent_found _ _ now _ _ _ Hfind Hitem). simpl.
      apply Forall_lookup. intros i item. rewrite renumber_lookup.
      destruct (_ !! i) as [item'|] eqn:Hi; simpl; [|done]. intros [= <-].
      apply validateContent_stamp.
      apply (proj1 (Forall_forall _ _) Hvalid).
      apply list_elem_of_lookup_2 in Hi.
      apply elem_of_app in Hi as [Hi|Hi].
      * eapply elem_of_sublist in Hi; [|apply sublist_take].
        by apply list_elem_of_delete_inv in Hi.
      * apply elem_of_cons in Hi as [->|Hi];
          [by eapply list_elem_of_lookup_2|].
        eapply elem_of_sublist in Hi; [|apply sublist_drop].
        by apply list_elem_of_delete_inv in Hi.
    + by rewrite reorderContent_absent.
Qed.

(** X11. When every added item is of a known kind and gets a non-empty id,
    every item of the store passes [validateContent] after any sequence of
    additions, deletions and moves, so the array of these items is loaded
    as it is. *)
Theorem run_reloads (ops : list op) :
  Forall typed_op ops →
  Forall (λ item, validateContent (VObj item) = true) (run ops)
  ∧ loadContents (Parsed (VArr (VObj <$> run ops))) = run ops.
Proof.
  intros Htyped.
  assert (Forall (λ item, validateContent (VObj item) = true) (run ops))
    as Hvalid.
  { unfold run.
    assert (Forall (λ item, validateContent (VObj item) = true) [])
      as Hnil by constructor.
    revert Hnil. generalize (@nil Content).
    induction Htyped as [|o ops Ho _ IH]; intros contents Hvalid; [done|].
    simpl. apply IH. by apply step_valid. }
  split; [done|]. apply loadContents_items.
  apply Forall_fmap. eapply Forall_impl; [done|].
  intros item Hitem. by apply validateContent_spec.
Qed.

Lemma run_reloads_witness :
  loadContents
    (Parsed (VArr (VObj <$>
       run [Add {["type" := VStr "text"]} "a" today;
            Add {["type" := VStr "grid"]} "b" today;
            Reorder "b" 0 clock; Delete "a"])))
  = run [Add {["type" := VStr "text"]} "a" today;
         Add {["type" := VStr "grid"]} "b" today;
         Reorder "b" 0 clock; Delete "a"].
Proof.
  apply (run_reloads
           [Add {["type" := VStr "text"]} "a" today;
            Add {["type" := VStr "grid"]} "b" today;
            Reorder "b" 0 clock; Delete "a"]).
  repeat constructor; simpl; try done.
  - exists "text". split; [reflexivity|]. unfold validTypes.
    rewrite !elem_of_cons. tauto.
  - exists "grid". split; [reflexivity|]. unfold validTypes.
    rewrite !elem_of_cons. tauto.
Defined.

Lemma accepting_type (content : Content) ty :
  content !! "type" = Some (VStr ty) →
  accepting content
  = length (List.filter (String.eqb ty)
              ["text"; "title"; "table"; "button"; "card"; "grid"]).
Proof.
  intros Hty. unfold accepting, guards. simpl.
  unfold isTextContent, isTitleContent, isTableContent, isButtonContent,
    isCardContent, isGridContent, has_type.
  rewrite Hty. simpl.
  repeat match goal with
         | |- context [String.eqb ty ?s] => destruct (String.eqb ty s)
         end; reflexivity.
Qed.

(** X12. The six type guards exclude one another, and a content that passed
    [validateContent] satisfies exactly one of them. *)
Theorem guards_partition (content : Content) :
  (accepting content ≤ 1)%nat
  ∧ (validateContent (VObj content) = true → accepting content = 1%nat).
Proof.
  split.
  - destruct (content !! "type") as [[| | | |ty| |]|] eqn:Hty;
      try (unfold accepting, guards; simpl;
           unfold isTextContent, isTitleContent, isTableContent,
             isButtonContent, isCardContent, isGridContent, has_type;
           rewrite Hty; simpl; lia).
    rewrite (accepting_type _ _ Hty). simpl.
    repeat (match goal with
            | |- context [String.eqb ty ?s] =>
                destruct (String.eqb_spec ty s) as [->|?]
            end; simpl; try lia).
  - intros (props & ty & q & [= <-] & _ & Hty & Hin & _)%validateContent_spec.
    rewrite (accepting_type _ _ Hty). unfold validTypes in Hin.
    rewrite !elem_of_cons, elem_of_nil in Hin.
    by destruct Hin as [->|[->|[->|[->|[->|[->|[]]]]]]].
Qed.

Lemma guards_partition_witness : accepting item_minus1 = 1%nat.
Proof. apply (guards_partition item_minus1). reflexivity. Defined.

(** X13. What the table form submits is, once the store has completed it under
    a non-empty id, a content that passes [validateContent] and that
    [isTableContent] and no other guard accepts. *)
Theorem onSubmit_valid_table (values : TableFormValues)
    (contents_length : nat) (uuid now : string) (prev : list Content) :
  uuid ≠ "" →
  ∃ item : Content,
    onSubmit values contents_length uuid now prev = prev ++ [item]
    ∧ has_id uuid item = true
    ∧ validateContent (VObj item) = true
    ∧ isTableContent item = true
    ∧ accepting item = 1%nat.
Proof.
  intros Huuid. eexists. split; [reflexivity|].
  assert (typed_data (tableObject (contentToAdd values))) as Htyped.
  { exists "table". split; [by unfold tableObject; simplify_map_eq|].
    unfold validTypes. rewrite !elem_of_cons. tauto. }
  split; [|split; [by apply addContent_new_valid|split]].
  - apply has_id_new. rewrite !lookup_insert_ne by done.
    by rewrite lookup_insert_eq.
  - unfold isTableContent, has_type, tableObject. by simplify_map_eq.
  - rewrite (accepting_type _ "table"); [reflexivity|].
    unfold tableObject. by simplify_map_eq.
Qed.

Lemma onSubmit_valid_table_witness :
  ∃ item : Content,
    onSubmit form_bob 0 "u" today [] = [] ++ [item]
    ∧ has_id "u" item = true
    ∧ validateContent (VObj item) = true
    ∧ isTableContent item = true
    ∧ accepting item = 1%nat.
Proof. by apply (onSubmit_valid_table form_bob 0 "u" today []). Defined.

End ValidationExtras.

(** ** The first version of the store *)

Module StoreV1Facts.
Import Store StoreExtras Examples.

(** X14. In the first version, adding a content under an id that is not in use
    and deleting that id gives back the list. *)
Theorem v1_add_then_delete (content : Content) (id : string)
    (prevList : list Content) :
  (∀ content', content' ∈ prevList → has_id id content' = false) →
  StoreV1.deleteContent id (StoreV1.addContent content id prevList) = prevList.
Proof.
  intros Hfresh. unfold StoreV1.deleteContent, StoreV1.addContent.
  rewrite List.filter_app. simpl.
  rewrite has_id_new by (by rewrite lookup_insert_eq). simpl.
  rewrite app_nil_r. apply filter_all.
  intros content' Hin. by rewrite (Hfresh content' Hin).
Qed.

Lemma v1_add_then_delete_witness :
  StoreV1.deleteContent "c" (StoreV1.addContent new_text "c" store_ab)
  = store_ab.
Proof.
  apply (v1_add_then_delete new_text "c" store_ab). by apply findIndex_None.
Defined.

(** X15. In the first version, [updateContent] replaces every content with the
    id of the given one by the given one as a whole, keeps the others and
    the length, and doing it again changes nothing. *)
Theorem v1_updateContent_replaces (updatedContent : Content) (id : string)
    (prevList : list Content) :
  updatedContent !! "id" = Some (VStr id) →
  ∃ nextList,
    StoreV1.updateContent updatedContent prevList = Some nextList
    ∧ length nextList = length prevList
    ∧ (∀ i content, prevList !! i = Some content →
         nextList !! i
         = Some (if has_id id content then updatedContent else content))
    ∧ StoreV1.updateContent updatedContent nextList = Some nextList.
Proof.
  intros Hid. unfold StoreV1.updateContent. rewrite Hid.
  eexists. split; [reflexivity|]. split; [by rewrite length_fmap|]. split.
  - intros i content Hi. by rewrite list_lookup_fmap, Hi.
  - f_equal. rewrite <- list_fmap_compose. apply list_fmap_ext.
    intros i content _. simpl.
    destruct (has_id id content) eqn:Hcontent; [|by rewrite Hcontent].
    by rewrite (has_id_new _ _ Hid).
Qed.

Lemma v1_updateContent_replaces_witness :
  ∃ nextList,
    StoreV1.updateContent (<["id" := VStr "b"]> new_text) store_ab
    = Some nextList
    ∧ length nextList = 2%nat.
Proof.
  destruct (v1_updateContent_replaces (<["id" := VStr "b"]> new_text) "b"
              store_ab (lookup_insert_eq _ _ _))
    as (nextList & Hnext & Hlen & _).
  by exists nextList.
Defined.

End StoreV1Facts.

(** ** Further facts about the table form *)

Module TableExtras.
Import Store TableForm TableFacts Examples.




(** X16. Adding a column under an id no row uses and removing the column just
    added gives back the form. *)
Theorem addColumn_then_removeColumn (newColId : string)
    (form : TableFormValues) :
  (∀ row, row ∈ data form → row !! newColId = None) →
  handleRemoveColumn (length (columns form)) (handleAddColumn newColId form)
  = form.
Proof.
  intros Hfresh. unfold handleRemoveColumn.
  rewrite handleAddColumn_columns.
  rewrite lookup_app_r, Nat.sub_diag by done. simpl.
  unfold setValue_data, removeColumn. simpl.
  rewrite handleAddColumn_columns, handleAddColumn_data,
    handleAddColumn_title.
  replace (length (columns form)) with (length (columns form) + 0)%nat
    at 1 by lia.
  rewrite Nat.add_0_r, delete_middle, app_nil_r.
  rewrite <- list_fmap_compose.
  rewrite (list_fmap_ext _ (λ row : Row, row)).
  - rewrite list_fmap_id. by destruct form.
  - intros i row Hrow. simpl. apply delete_insert_id.
    by apply Hfresh, (list_elem_of_lookup_2 _ i).
Qed.

Lemma addColumn_then_removeColumn_witness :
  handleRemoveColumn 1 (handleAddColumn "b" form_alice) = form_alice.
Proof.
  apply (addColumn_then_removeColumn "b" form_alice).
  intros row Hin. unfold form_alice in Hin. simpl in Hin.
  apply list_elem_of_singleton in Hin as ->. reflexivity.
Defined.







End TableExtras.

(** ** The ids of a form item *)

Module FormUtilsFacts.
Import FormUtils.

Lemma length_append (s1 s2 : string) :
  String.length (s1 ++ s2) = (String.length s1 + String.length s2)%nat.
Proof. induction s1 as [|a s1 IH]; simpl; [done|]. by rewrite IH. Qed.

Lemma append_nonempty (s1 s2 : string) :
  s2 ≠ "" → String.eqb (s1 ++ s2) "" = false.
Proof.
  intros Hs2. destruct s1; [|reflexivity].
  change ("" ++ s2)%string with s2. by apply String.eqb_neq.
Qed.

(** X18. The three ids [useFormField] derives from an item id differ from one
    another, and [describedBy] is never the empty string: it is the
    description id, followed after a space by the message id exactly when
    the field has an error; so [aria-describedby] is always set. *)
Theorem describedBy_never_empty (id : string) (error : bool) :
  formItemId id ≠ formDescriptionId id
  ∧ formItemId id ≠ formMessageId id
  ∧ formDescriptionId id ≠ formMessageId id
  ∧ describedBy id error
    = (if error
       then (formDescriptionId id ++ " " ++ formMessageId id)%string
       else formDescriptionId id)
  ∧ aria_describedby id error = Some (describedBy id error).
Proof.
  unfold formItemId, formDescriptionId, formMessageId.
  split; [|split; [|split]].
  - intros H%(f_equal String.length). rewrite !length_append in H.
    simpl in H. lia.
  - intros H%(f_equal String.length). rewrite !length_append in H.
    simpl in H. lia.
  - intros H%(f_equal String.length). rewrite !length_append in H.
    simpl in H. lia.
  - assert (describedBy id error
            = if error
              then ((id ++ "-form-item-description") ++ " "
                    ++ (id ++ "-form-item-message"))%string
              else (id ++ "-form-item-description")%string) as Hdescr.
    { unfold describedBy, filter_Boolean, formDescriptionId, formMessageId.
      destruct error; simpl; rewrite !append_nonempty by done; done. }
    split; [done|]. unfold aria_describedby. rewrite Hdescr.
    destruct error; by rewrite append_nonempty.
Qed.

End FormUtilsFacts.
